(** * jupyter-fs: the tree-finder command layer ([js/src/commands.ts])

    A shallow embedding of the command bindings of the tree-finder sidebar:
    the pure helpers ([idFromResource], [currentWidgetSelectionIsWritable],
    [_getRelativePaths]), the enablement and visibility predicates, and the
    [execute] bodies of the commands, written as programs over the calls they
    make to their collaborators.  The clipboard model ([./clipboard]) and the
    content backend are not part of this file of the repository; they are
    modelled from the specification in [Module Clipboard]. *)

From Stdlib Require Import String Ascii List Bool Arith Lia FinFun.
From Stdlib Require Import DecimalString DecimalNat.
Import ListNotations.
Open Scope string_scope.
Open Scope list_scope.

(* ================================================================== *)
(** ** JavaScript strings and arrays

    A string is a sequence of code units; the model covers the code units
    below 256, which is where every separator used by the commands lives. *)

Module JS.

(** [String.prototype.split] with a one-code-unit separator: the pieces
    between the occurrences of the separator, the empty string giving one
    empty piece. *)
Fixpoint split (sep : ascii) (s : string) : list string :=
  match s with
  | EmptyString => [EmptyString]
  | String a rest =>
      if Ascii.eqb a sep then EmptyString :: split sep rest
      else match split sep rest with
           | [] => [String a EmptyString]
           | piece :: pieces => String a piece :: pieces
           end
  end.

(** [Array.prototype.join]: the elements separated by [sep]; the empty
    array gives the empty string. *)
Fixpoint join (sep : string) (xs : list string) : string :=
  match xs with
  | [] => EmptyString
  | [x] => x
  | x :: rest => x ++ sep ++ join sep rest
  end.

(** WhiteSpace and LineTerminator code units below 256: TAB, LF, VT, FF,
    CR, SP and NBSP. *)
Definition is_whitespace (a : ascii) : bool :=
  let n := nat_of_ascii a in
  ((n =? 9) || (n =? 10) || (n =? 11) || (n =? 12) || (n =? 13)
   || (n =? 32) || (n =? 160))%nat.

(** The code unit matched by the pattern [\/]. *)
Definition is_slash (a : ascii) : bool := Ascii.eqb a "/"%char.

(** Every code unit of the string satisfies [p]. *)
Fixpoint all_chars (p : ascii -> bool) (s : string) : bool :=
  match s with
  | EmptyString => true
  | String a rest => p a && all_chars p rest
  end.

(** The input without its longest suffix made of code units satisfying
    [p]: scanning from the left, the first position from which the whole
    rest satisfies [p] is where the removed part starts. *)
Fixpoint strip_trailing (p : ascii -> bool) (s : string) : string :=
  match s with
  | EmptyString => EmptyString
  | String a rest =>
      if all_chars p s then EmptyString
      else String a (strip_trailing p rest)
  end.

(** [String.prototype.trimEnd]: trailing white space removed. *)
Definition trimEnd (s : string) : string := strip_trailing is_whitespace s.

(** [s.replace(/\/+$/, "")]: the match of the pattern starts at the
    leftmost position from which the rest of the input is one or more
    slashes, and is replaced by the empty string. *)
Definition replace_trailing_slashes (s : string) : string :=
  strip_trailing is_slash s.

(** The last code unit of a string, if any. *)
Fixpoint last_char (s : string) : option ascii :=
  match s with
  | EmptyString => None
  | String a EmptyString => Some a
  | String _ rest => last_char rest
  end.

(** Every occurrence of a code unit removed. *)
Fixpoint remove_char (c : ascii) (s : string) : string :=
  match s with
  | EmptyString => EmptyString
  | String a rest =>
      if Ascii.eqb a c then remove_char c rest
      else String a (remove_char c rest)
  end.

End JS.

(* ================================================================== *)
(** ** The tree model as the commands see it *)

Module Tree.

(** [ContentsProxy.IJupyterContentRow]: the fields the commands read. *)
Record Row := mkRow {
  path : list string;
  name : string;
  kind : string;
  writable : bool
}.

(** [Content<IJupyterContentRow>]: a node of the tree, with the getters
    the commands read. *)
Record Content := mkContent {
  row : Row;
  hasChildren : bool;
  pathstr : string
}.

(** [Content.getPathAtDepth(depth)]: the path segments from [depth] on. *)
Definition getPathAtDepth (c : Content) (depth : nat) : list string :=
  skipn depth (path (row c)).

(** [ContentsModel]: the current selection (an array, possibly empty), the
    item selected last (possibly none) and the root. *)
Record Model := mkModel {
  selection : list Content;
  selectedLast : option Content;
  root : Content
}.

(** The tree-finder panel of a sidebar: [treefinder.model], which may be
    unset, and what its own [treefinder.selection] getter answers, which may
    be [undefined]. *)
Record TreeFinder := mkTreeFinder {
  model : option Model;
  panel_selection : option (list Content)
}.

(** [TreeFinderSidebar]. *)
Record Widget := mkWidget {
  treefinder : TreeFinder;
  url : option string
}.

(** [TreeFinderTracker]. *)
Record Tracker := mkTracker {
  currentWidget : option Widget
}.

End Tree.

Module Filesystem.

(** [IFSResource]: the fields [idFromResource] reads. *)
Record IFSResource := mkResource {
  name : string;
  drive : string
}.

End Filesystem.

(* ================================================================== *)
(** ** Failures *)

Module Errors.

(** The error taxonomy of the operations. *)
Inductive error :=
| UnsupportedOperation
| PermissionDenied
| EmptyClipboard
| NameConflict
| NotFound
| Conflict.

(** What a command can throw, or a promise can be rejected with: the
    [TypeError] of a property read on [null] or [undefined], an error of
    a collaborator, or the aggregate of the failures of a batch. *)
Inductive exn :=
| TypeError
| Raised (e : error)
| Aggregate (failures : list (list string * error)).

End Errors.

(* ================================================================== *)
(** ** Programs over the calls to collaborators

    A command body is straight-line code that calls its collaborators,
    awaits promises and registers callbacks.  [prog E] is the tree of those
    steps, in continuation style; [E X] is the type of calls that answer
    with an [X]. *)

Module Prog.
Import Errors.

(** A promise as its eventual fate: the instant at which it settles and
    what it settles with. *)
Record promise (X : Type) := mkPromise {
  settles_at : nat;
  outcome : exn + X
}.
Arguments mkPromise {X}.
Arguments settles_at {X}.
Arguments outcome {X}.

(** [Done]: the body returns; [Throw]: it throws; [Call]: a call to a
    collaborator, answered at once (an asynchronous one answers with a
    promise); [Await]: the body waits for a promise and goes on with its
    value, or throws its rejection; [Then]: a callback is registered on a
    promise and the body goes on without waiting. *)
Inductive prog (E : Type -> Type) : Type :=
| Done
| Throw (e : exn)
| Call {X : Type} (c : E X) (k : X -> prog E)
| Await {X : Type} (p : promise X) (k : X -> prog E)
| Then {X : Type} (p : promise X) (cb : X -> prog E) (k : prog E).
Arguments Done {E}.
Arguments Throw {E}.
Arguments Call {E X}.
Arguments Await {E X}.
Arguments Then {E X}.

(** A property read through a value that may be [null] or [undefined]. *)
Definition nonnull {E X} (o : option X) (k : X -> prog E) : prog E :=
  match o with
  | Some x => k x
  | None => Throw TypeError
  end.

(** [xs.map(x => call(x))]: the calls made in order, their answers
    collected. *)
Fixpoint call_each {E X} (cs : list (E X)) (k : list X -> prog E) : prog E :=
  match cs with
  | [] => k []
  | c :: rest => Call c (fun x => call_each rest (fun xs => k (x :: xs)))
  end.

(** [Promise.allSettled]: settles once every input has settled, and is
    always fulfilled, with the fates of its inputs. *)
Definition allSettled {X} (ps : list (promise X)) : promise (list (exn + X)) :=
  mkPromise (list_max (map settles_at ps)) (inr (map outcome ps)).

(** Running a program from world [w] at instant [t] against a handler of
    its calls: the final world, the instant at which the body completes,
    and the exception it completes with, if any.  A callback registered
    with [Then] runs once its promise is fulfilled; it does not delay the
    body and nothing observes how it ends. *)
Fixpoint run {E : Type -> Type} {W : Type}
    (h : forall X, E X -> W -> W * (exn + X))
    (p : prog E) (w : W) (t : nat) : W * nat * option exn :=
  match p with
  | Done => (w, t, None)
  | Throw e => (w, t, Some e)
  | Call c k =>
      match h _ c w with
      | (w', inl e) => (w', t, Some e)
      | (w', inr x) => run h (k x) w' t
      end
  | Await p k =>
      let t' := Nat.max t (settles_at p) in
      match outcome p with
      | inl e => (w, t', Some e)
      | inr x => run h (k x) w t'
      end
  | Then p cb k =>
      match run h k w t with
      | (w1, t1, r) =>
          match outcome p with
          | inl _ => (w1, t1, r)
          | inr x =>
              match run h (cb x) w1 (Nat.max t1 (settles_at p)) with
              | (w2, _, _) => (w2, t1, r)
              end
          end
      end
  end.

End Prog.

Notation "x <- c ;; k" := (c (fun x => k))
  (at level 61, c at next level, right associativity).

(* ================================================================== *)
(** ** The commands ([commands.ts]) *)

Module Commands.
Import Tree Errors Prog.

(** The command names, in the order of [commandNames]. *)
Definition commandNames : list string :=
  [ "copy"; "cut"; "delete"; "open"; "paste"; "refresh"; "rename";
    "download"; "create_folder"; "copyFullPath"; "copyRelativePath";
    "toggleColumnPath"; "toggleColumn" ].

(** [commandIDs[name]]. *)
Definition commandID (name : string) : string := "treefinder:" ++ name.

(** The optional columns of the tree view. *)
Definition COLUMN_NAMES : list string :=
  [ "size"; "last_modified"; "writable"; "mimetype" ].

(** The id of the command that toggles one column. *)
Definition toggleColumnCommandId (column : string) : string :=
  commandID "toggleColumn" ++ "-" ++ column.

(** [[resource.name.split(" ").join(""), resource.drive].join("_")]. *)
Definition idFromResource (resource : Filesystem.IFSResource) : string :=
  JS.join "_"
    [ JS.join "" (JS.split " "%char (Filesystem.name resource));
      Filesystem.drive resource ].

(** [false] without a current widget; otherwise [every] over the
    selection read through [model?.selection], and [false] when that read
    gives [undefined].  An array, even an empty one, is truthy. *)
Definition currentWidgetSelectionIsWritable (tracker : Tracker) : bool :=
  match currentWidget tracker with
  | None => false
  | Some w =>
      match option_map selection (model (treefinder w)) with
      | Some sel => forallb (fun x => writable (row x)) sel
      | None => false
      end
  end.

(** The loop of [_getRelativePaths]: each file's path from depth 1 joined
    by a slash, pushed onto [allPaths]. *)
Definition _getRelativePaths (selectedFiles : list Content) : list string :=
  fold_left
    (fun allPaths file =>
       let relativePath := JS.join "/" (getPathAtDepth file 1) in
       allPaths ++ [relativePath])
    selectedFiles [].

(** The local [trimEnd] of the copy-full-path command:
    [path.trimEnd().replace(/\/+$/, "")]. *)
Definition trimEnd (path : string) : string :=
  JS.replace_trailing_slashes (JS.trimEnd path).

(** The separator of the lines written to the system clipboard. *)
Definition newline : string := String (ascii_of_nat 10) EmptyString.

(** *** Enablement and visibility *)

(** [!!tracker.currentWidget]. *)
Definition hasCurrentWidget (tracker : Tracker) : bool :=
  match currentWidget tracker with Some _ => true | None => false end.

(** [isVisible] of copy: hidden without a widget, hidden when some
    selected row is a directory; when the model is unset the optional
    chain gives [undefined] and the command stays visible. *)
Definition copy_isVisible (tracker : Tracker) : bool :=
  match currentWidget tracker with
  | None => false
  | Some widget =>
      match model (treefinder widget) with
      | Some m =>
          if existsb (fun v => String.eqb (kind (row v)) "dir") (selection m)
          then false else true
      | None => true
      end
  end.

(** The [isEnabled] of each command. *)
Definition copy_isEnabled := hasCurrentWidget.
Definition cut_isEnabled := currentWidgetSelectionIsWritable.
Definition delete_isEnabled := currentWidgetSelectionIsWritable.
Definition open_isEnabled := hasCurrentWidget.
Definition paste_isEnabled := hasCurrentWidget.
Definition rename_isEnabled := currentWidgetSelectionIsWritable.
Definition create_folder_isEnabled := hasCurrentWidget.
Definition refresh_isEnabled := hasCurrentWidget.
Definition copyFullPath_isEnabled := hasCurrentWidget.
Definition copyRelativePath_isEnabled := hasCurrentWidget.

(** [!!(tracker.currentWidget?.treefinder.model?.selection)]. *)
Definition download_isEnabled (tracker : Tracker) : bool :=
  match currentWidget tracker with
  | None => false
  | Some w =>
      match option_map selection (model (treefinder w)) with
      | Some _ => true
      | None => false
      end
  end.

(** *** Calls to the clipboard model *)

(** The clipboard operations receive [treefinder.model!], which is
    [undefined] when the model is unset. *)
Inductive clipE : Type -> Type :=
| CopySelection (m : option Model) : clipE unit
| CutSelection (m : option Model) : clipE unit
| DeleteSelection (m : option Model) : clipE unit
| PasteSelection (m : option Model) : clipE unit.

(** The [execute] of copy, cut, delete and paste: the operation of the
    clipboard model applied to the model of the current widget. *)
Definition clipboard_command (op : option Model -> clipE unit)
    (tracker : Tracker) : prog clipE :=
  widget <- nonnull (currentWidget tracker) ;;
  _ <- Call (op (model (treefinder widget))) ;;
  Done.

Definition copy_execute := clipboard_command CopySelection.
Definition cut_execute := clipboard_command CutSelection.
Definition delete_execute := clipboard_command DeleteSelection.
Definition paste_execute := clipboard_command PasteSelection.

(** *** Calls to the widget, the tree and the browser *)

(** [openSub.next], [TreeFinderSidebar.doRename], [renamerSub.next], the
    assignment [content.row = ...], [widget.download], [getContentParent],
    [contentsProxy.newUntitled], [target.invalidate], [revealAndSelectPath],
    [refreshSub.next], [TreeFinderSidebar.scrollIntoView] and
    [navigator.clipboard.writeText]. *)
Inductive uiE : Type -> Type :=
| OpenNext (m : Model) (rows : option (list Row)) : uiE unit
| DoRename (w : Widget) (c : option Content) : uiE (promise Row)
| RenamerNext (m : Model) (newName : string) (target : option Content)
    : uiE unit
| SetRow (c : Content) (r : Row) : uiE unit
| Download (w : Widget) (path : string) (isContainer : bool)
    : uiE (promise unit)
| GetContentParent (c rootContent : Content) : uiE (promise Content)
| NewUntitled (w : Widget) (type : string) (path : string)
    : uiE (promise Row)
| Invalidate (c : Content) : uiE unit
| RevealAndSelectPath (m : Model) (path : list string)
    : uiE (promise Content)
| RefreshNext (m : Model) (targets : list Content) : uiE unit
| ScrollIntoView (w : Widget) (path : string) : uiE (promise unit)
| WriteText (text : string) : uiE (promise unit).

(** [openSub.next(treefinder.selection?.map(c => c.row))]. *)
Definition open_execute (tracker : Tracker) : prog uiE :=
  widget <- nonnull (currentWidget tracker) ;;
  m <- nonnull (model (treefinder widget)) ;;
  _ <- Call (OpenNext m
               (option_map (map row) (panel_selection (treefinder widget)))) ;;
  Done.

(** Rename: the first element of the selection ([undefined] for an empty
    array) goes to [doRename]; the callback publishes the new name through
    [model?.renamerSub] and assigns the new row to the old content (a
    [TypeError] when that is [undefined]).  The promise is not awaited. *)
Definition rename_execute (tracker : Tracker) : prog uiE :=
  widget <- nonnull (currentWidget tracker) ;;
  sel <- nonnull (panel_selection (treefinder widget)) ;;
  let oldContent := nth_error sel 0 in
  p <- Call (DoRename widget oldContent) ;;
  Then p
    (fun newContent =>
       match model (treefinder widget) with
       | Some m =>
           _ <- Call (RenamerNext m (name newContent) oldContent) ;;
           old <- nonnull oldContent ;;
           _ <- Call (SetRow old newContent) ;;
           Done
       | None =>
           old <- nonnull oldContent ;;
           _ <- Call (SetRow old newContent) ;;
           Done
       end)
    Done.

(** Download: one [widget.download] per selected item, all started before
    any is awaited, then [await Promise.allSettled]. *)
Definition download_execute (tracker : Tracker) : prog uiE :=
  widget <- nonnull (currentWidget tracker) ;;
  sel <- nonnull (panel_selection (treefinder widget)) ;;
  ps <- call_each
          (map (fun s => Download widget (pathstr s) (hasChildren s)) sel) ;;
  _ <- Await (allSettled ps) ;;
  Done.

Section CreateFolder.
(** [Path.fromarray] and [getRefreshTargets] are helpers of other
    modules; the command only passes their results on. *)
Variable Path_fromarray : list string -> string.
Variable getRefreshTargets : list Row -> Content -> list Content.

(** [model.selectedLast ?? model.root], replaced by its parent when it
    has no children. *)
Definition create_folder_target (m : Model)
    (k : Content -> prog uiE) : prog uiE :=
  let target := match selectedLast m with
                | Some c => c
                | None => root m
                end in
  if negb (hasChildren target) then
    p <- Call (GetContentParent target (root m)) ;;
    parent <- Await p ;;
    k parent
  else k target.

(** Create folder: an untitled directory under the target, the target
    invalidated, the new node revealed, refreshed, scrolled to and renamed
    in place. *)
Definition create_folder_execute (tracker : Tracker) : prog uiE :=
  widget <- nonnull (currentWidget tracker) ;;
  m <- nonnull (model (treefinder widget)) ;;
  target <- create_folder_target m ;;
  let path := Path_fromarray (Tree.path (row target)) in
  p <- Call (NewUntitled widget "directory" path) ;;
  newRow <- Await p ;;
  _ <- Call (Invalidate target) ;;
  p <- Call (RevealAndSelectPath m (Tree.path newRow)) ;;
  content <- Await p ;;
  _ <- Call (RefreshNext m (getRefreshTargets [row target] (root m))) ;;
  p <- Call (ScrollIntoView widget (pathstr content)) ;;
  _ <- Await p ;;
  p <- Call (DoRename widget (Some content)) ;;
  newContent <- Await p ;;
  _ <- Call (RenamerNext m (name newContent) (Some content)) ;;
  _ <- Call (SetRow content newContent) ;;
  Done.
End CreateFolder.

(** The text the copy-relative-path command writes. *)
Definition relativePaths_text (sel : list Content) : string :=
  JS.join newline (_getRelativePaths sel).

(** The text the copy-full-path command writes: each relative path joined
    by a slash to the trimmed [widget.url ?? ""]. *)
Definition fullPaths_text (widget : Widget) (sel : list Content) : string :=
  let fullPaths :=
    map (fun relativePath =>
           JS.join "/"
             [ trimEnd (match url widget with Some u => u | None => "" end);
               relativePath ])
        (_getRelativePaths sel) in
  JS.join newline fullPaths.

(** Both path commands write their text with
    [navigator.clipboard.writeText] and await it. *)
Definition copyFullPath_execute (tracker : Tracker) : prog uiE :=
  widget <- nonnull (currentWidget tracker) ;;
  sel <- nonnull (panel_selection (treefinder widget)) ;;
  p <- Call (WriteText (fullPaths_text widget sel)) ;;
  _ <- Await p ;;
  Done.

Definition copyRelativePath_execute (tracker : Tracker) : prog uiE :=
  widget <- nonnull (currentWidget tracker) ;;
  sel <- nonnull (panel_selection (treefinder widget)) ;;
  p <- Call (WriteText (relativePaths_text sel)) ;;
  _ <- Await p ;;
  Done.

(** *** Observing a run *)

(** A call, whatever it answers with. *)
Inductive event :=
| Ev {X : Type} (c : uiE X).

(** The collaborators as an oracle: each call is logged and answered. *)
Definition logging (oracle : forall X, uiE X -> X)
    (X : Type) (c : uiE X) (trace : list event)
    : list event * (exn + X) :=
  (trace ++ [Ev c], inr (oracle X c)).

End Commands.

(* ================================================================== *)
(** ** JavaScript objects used as maps *)

Module JSObject.

(** An object with string keys: its own properties in insertion order. *)
Definition t (V : Type) : Type := list (string * V).

(** The own property [k] of [o], if there is one.  For a key that is no
    member of [Object.prototype] (such as the command and column names the
    program reads) this is [o[k]], [None] standing for [undefined]; members
    inherited from the prototype ([constructor], [toString], ...) are not
    part of the model. *)
Fixpoint get {V : Type} (k : string) (o : t V) : option V :=
  match o with
  | [] => None
  | (k', v) :: rest => if String.eqb k' k then Some v else get k rest
  end.

(** [o[k] = v] for a key that is no member of [Object.prototype]: an
    existing own property keeps its place, a new one goes last. *)
Fixpoint set {V : Type} (k : string) (v : V) (o : t V) : t V :=
  match o with
  | [] => [(k, v)]
  | (k', v') :: rest =>
      if String.eqb k' k then (k', v) :: rest
      else (k', v') :: set k v rest
  end.

(** [Object.keys]. *)
Definition keys {V : Type} (o : t V) : list string := map fst o.

(** [Object.fromEntries]: the entries assigned in order. *)
Definition fromEntries {V : Type} (entries : list (string * V)) : t V :=
  fold_left (fun o e => set (fst e) (snd e) o) entries [].

End JSObject.

(* ================================================================== *)
(** ** Command ids, registrations and the context menu *)

Module Registry.
Import Tree Errors Prog Commands.

(** [commandIDs]: [Object.fromEntries] over the pairs
    [[name, `treefinder:${name}`]] of [commandNames]. *)
Definition commandIDs : JSObject.t string :=
  JSObject.fromEntries
    (map (fun name : string => (name, ("treefinder:" ++ name)%string))
         commandNames).

(** The ids [createCommands] passes to [addCommand], in order: the twelve
    named commands, then one toggle command per column name. *)
Definition registeredCommands (columns : list string) : list string :=
  [ commandID "copy"; commandID "cut"; commandID "delete";
    commandID "open"; commandID "paste"; commandID "rename";
    commandID "download"; commandID "create_folder"; commandID "refresh";
    commandID "copyFullPath"; commandID "copyRelativePath";
    commandID "toggleColumnPath" ]
  ++ map toggleColumnCommandId columns.

(** What [addItem] is given besides the selector and the rank: a command
    (with [args: { selection: true }] or without), a separator, or the
    submenu, itself a list of commands. *)
Inductive MenuEntry :=
| CommandEntry (command : string) (selectionArg : bool)
| SeparatorEntry
| SubmenuEntry (commands : list string).

Record ContextMenuItem := mkItem {
  entry : MenuEntry;
  selector : string;
  rank : nat
}.

(** The submenu: [toggleColumnPath], then the toggle of each column. *)
Definition submenu (columns : list string) : list string :=
  commandID "toggleColumnPath" :: map toggleColumnCommandId columns.

(** One [app.contextMenu.addItem({ ..., selector, rank: contextMenuRank++ })]:
    the item takes the current rank and the counter moves on. *)
Definition addItem (e : MenuEntry)
    (st : list ContextMenuItem * nat) : list ContextMenuItem * nat :=
  let '(items, contextMenuRank) := st in
  (items ++ [mkItem e ".jp-tree-finder-sidebar" contextMenuRank],
   S contextMenuRank).

(** The entries of the context menu in the order of the array literal. *)
Definition contextMenuEntries (columns : list string) : list MenuEntry :=
  [ CommandEntry (commandID "open") false;
    CommandEntry (commandID "copy") false;
    CommandEntry (commandID "cut") false;
    CommandEntry (commandID "paste") false;
    CommandEntry (commandID "delete") false;
    CommandEntry (commandID "rename") false;
    CommandEntry (commandID "download") false;
    SeparatorEntry;
    CommandEntry (commandID "copyFullPath") false;
    CommandEntry (commandID "copyRelativePath") false;
    SeparatorEntry;
    SubmenuEntry (submenu columns);
    CommandEntry (commandID "refresh") true ].

(** The context menu items as [createCommands] adds them, with
    [contextMenuRank] starting at 1, and the counter afterwards. *)
Definition contextMenu (columns : list string)
    : list ContextMenuItem * nat :=
  fold_left (fun st e => addItem e st) (contextMenuEntries columns) ([], 1).

(** The commands an entry can trigger. *)
Definition entry_commands (e : MenuEntry) : list string :=
  match e with
  | CommandEntry c _ => [c]
  | SeparatorEntry => []
  | SubmenuEntry cs => cs
  end.

(** The calls of the refresh command to the clipboard. *)
Inductive refreshE : Type -> Type :=
| RefreshSelection (m : option Model) : refreshE unit
| Refresh (m : option Model) : refreshE unit.

(** Refresh: [args["selection"]], read for its truthiness, chooses between
    [clipboard.refreshSelection(model!)] and [clipboard.refresh(model)]. *)
Definition refresh_execute (selectionArg : bool) (tracker : Tracker)
    : prog refreshE :=
  if selectionArg then
    widget <- nonnull (currentWidget tracker) ;;
    _ <- Call (RefreshSelection (model (treefinder widget))) ;;
    Done
  else
    widget <- nonnull (currentWidget tracker) ;;
    _ <- Call (Refresh (model (treefinder widget))) ;;
    Done.

(** The label of the refresh command. *)
Definition refresh_label (selectionArg : bool) : string :=
  if selectionArg then "Refresh Selection" else "Refresh".

End Registry.

(* ================================================================== *)
(** ** The column toggles *)

Module Columns.
Import Errors Prog Commands.

(** The settings as [createCommands] reads them:
    [settings.composite.display_columns], which may be unset. *)
Record Settings := mkSettings {
  display_columns : option (list string)
}.

(** [Array.prototype.includes] on strings. *)
Definition includes (k : string) (xs : list string) : bool :=
  existsb (String.eqb k) xs.

(** [settings?.composite.display_columns ?? ["size"]]: the default stands
    in when the settings or the value are missing, not when the value is an
    empty array. *)
Definition colsToDisplay (settings : option Settings) : list string :=
  match settings with
  | Some s =>
      match display_columns s with
      | Some cols => cols
      | None => ["size"]
      end
  | None => ["size"]
  end.

(** The loop that fills [toggleState]: one property per column name. *)
Definition initialToggleState (settings : option Settings)
    : JSObject.t bool :=
  fold_left
    (fun toggleState key =>
       JSObject.set key (includes key (colsToDisplay settings)) toggleState)
    COLUMN_NAMES [].

(** The truthiness of [toggleState[k]]: [undefined] is falsy. *)
Definition truthy (v : option bool) : bool :=
  match v with
  | Some b => b
  | None => false
  end.

(** [isToggled] of the toggle command of a column: [toggleState[column]]. *)
Definition isToggled (toggleState : JSObject.t bool) (column : string)
    : option bool :=
  JSObject.get column toggleState.

(** [COLUMN_NAMES.filter(k => toggleState[k])]. *)
Definition visibleColumns (toggleState : JSObject.t bool) : list string :=
  filter (fun k => truthy (JSObject.get k toggleState)) COLUMN_NAMES.

(** [settings.set(key, value)]. *)
Inductive settingsE : Type -> Type :=
| SettingsSet (key : string) (value : list string)
    : settingsE (promise unit).

(** [execute] of the toggle command of a column: the property is negated
    in place, then the visible columns are written to the settings, when
    there are settings, and the write is awaited. *)
Definition toggleColumn_execute (settings : option Settings)
    (column : string) (toggleState : JSObject.t bool)
    : JSObject.t bool * prog settingsE :=
  let toggleState' :=
    JSObject.set column (negb (truthy (JSObject.get column toggleState)))
                 toggleState in
  (toggleState',
   match settings with
   | Some _ =>
       p <- Call (SettingsSet "display_columns" (visibleColumns toggleState')) ;;
       _ <- Await p ;;
       Done
   | None => Done
   end).

(** The value a toggle writes to the settings, if it writes one. *)
Definition written (p : prog settingsE) : option (list string) :=
  match p with
  | Call (SettingsSet _ value) _ => Some value
  | _ => None
  end.

End Columns.

(* ================================================================== *)
(** ** The clipboard engine and the content backend

    [./clipboard] and the contents backend are outside [commands.ts]; the
    definitions of this module follow the specification of the clipboard
    engine (operations, error taxonomy, batch policy) and of the backend
    interface. *)

Module Clipboard.
Import Tree Errors.

(** Equality of paths, segment by segment. *)
Fixpoint path_eqb (p q : list string) : bool :=
  match p, q with
  | [], [] => true
  | a :: p', b :: q' => String.eqb a b && path_eqb p' q'
  | _, _ => false
  end.

(** [p] is [q] or an ancestor of [q]. *)
Fixpoint is_prefix (p q : list string) : bool :=
  match p, q with
  | [], _ => true
  | a :: p', b :: q' => String.eqb a b && is_prefix p' q'
  | _ :: _, [] => false
  end.

(** Membership of a name in a list of names. *)
Definition mem (x : string) (xs : list string) : bool :=
  existsb (String.eqb x) xs.

(** Modelled from the spec: the name of an entry is the last segment of
    its path ("path segments uniquely determine position in the tree"). *)
Definition entry_name (p : list string) : string := last p "".

(** Modelled from the spec: the backend store, one row per entry, an entry
    being found by its path. *)
Definition lookup (p : list string) (store : list Row) : option Row :=
  find (fun r => path_eqb (path r) p) store.

(** Modelled from the spec: a container is an existing entry of kind
    [dir]. *)
Definition is_container (p : list string) (store : list Row) : bool :=
  match lookup p store with
  | Some r => String.eqb (kind r) "dir"
  | None => false
  end.

(** Modelled from the spec: the siblings in a container are the entries
    whose path is the container's path plus one segment ("a node's parent
    is the unique node whose path is its own path minus the last
    segment"). *)
Definition child_names (dest : list string) (store : list Row)
    : list string :=
  map (fun r => entry_name (path r))
    (filter (fun r => match path r with
                      | [] => false
                      | _ :: _ => path_eqb (removelast (path r)) dest
                      end) store).

(** Modelled from the spec: the numeric suffix of the disambiguation
    policy ("name, name-1, name-2, ..."). *)
Definition suffixed (name : string) (k : nat) : string :=
  name ++ "-" ++ NilEmpty.string_of_uint (Nat.to_uint k).

(** Modelled from the spec: "append a numeric suffix until unique"; the
    search tries the suffixes from [k] on, and one more candidate than
    there are taken names is always enough. *)
Fixpoint first_free (fuel k : nat) (name : string) (taken : list string)
    : string :=
  match fuel with
  | 0 => suffixed name k
  | S fuel' =>
      if mem (suffixed name k) taken
      then first_free fuel' (S k) name taken
      else suffixed name k
  end.

(** Modelled from the spec: "preserving name unless a collision exists, in
    which case a disambiguated name is generated". *)
Definition disambiguate (name : string) (taken : list string) : string :=
  if mem name taken then first_free (List.length taken) 1 name taken
  else name.

(** Modelled from the spec: backend [copy(srcPath, destContainerPath)],
    failing with [NotFound] when the source or the container is missing. *)
Definition backend_copy (src dest : list string) (store : list Row)
    : list Row * (error + Row) :=
  match lookup src store with
  | None => (store, inl NotFound)
  | Some r =>
      if is_container dest store then
        let n := disambiguate (entry_name src) (child_names dest store) in
        let r' := mkRow (dest ++ [n]) n (kind r) (writable r) in
        (store ++ [r'], inr r')
      else (store, inl NotFound)
  end.

(** Modelled from the spec: a move carries the entry, and what is under
    it, to the same place under the new path. *)
Definition relocate (src new : list string) (r : Row) : Row :=
  if is_prefix src (path r)
  then mkRow (new ++ skipn (List.length src) (path r))
             (if path_eqb src (path r) then entry_name new else name r)
             (kind r) (writable r)
  else r.

(** Modelled from the spec: backend [move(srcPath, destContainerPath)],
    failing with [NotFound], [PermissionDenied] or [Conflict]. *)
Definition backend_move (src dest : list string) (store : list Row)
    : list Row * (error + Row) :=
  match lookup src store with
  | None => (store, inl NotFound)
  | Some r =>
      if negb (writable r) then (store, inl PermissionDenied)
      else if negb (is_container dest store) then (store, inl NotFound)
      else if is_prefix src dest
              || mem (entry_name src) (child_names dest store)
      then (store, inl Conflict)
      else
        let new := dest ++ [entry_name src] in
        (map (relocate src new) store, inr (relocate src new r))
  end.

(** Modelled from the spec: backend [delete(path)], failing with
    [NotFound] or [PermissionDenied]. *)
Definition backend_delete (p : list string) (store : list Row)
    : list Row * (error + Row) :=
  match lookup p store with
  | None => (store, inl NotFound)
  | Some r =>
      if negb (writable r) then (store, inl PermissionDenied)
      else (filter (fun r' => negb (is_prefix p (path r'))) store, inr r)
  end.

(** Modelled from the spec: "mode: copy|cut". *)
Inductive Mode := copy | cut.

(** Modelled from the spec: the clipboard buffer, "at most one pending
    operation: {mode, items}". *)
Record ClipboardBuffer := mkBuffer {
  mode : Mode;
  items : list Content
}.

(** Modelled from the spec: the calls of the backend interface that the
    engine issues. *)
Inductive BackendCall :=
| BCopy (src dest : list string)
| BMove (src dest : list string)
| BDelete (p : list string).

(** Modelled from the spec: the engine owns the buffer and talks to the
    backend; [issued] records the backend calls made so far. *)
Record Engine := mkEngine {
  buffer : option ClipboardBuffer;
  store : list Row;
  issued : list BackendCall
}.

(** Modelled from the spec: "the batch reports an aggregate outcome
    listing which items succeeded and which failed with which error". *)
Definition report := list (Content * (error + Row)).

(** Modelled from the spec: an item of a batch succeeded when the backend
    answered with a row; a batch succeeded when every item did. *)
Definition item_ok (x : Content * (error + Row)) : bool :=
  match snd x with inr _ => true | inl _ => false end.

Definition all_ok (rep : report) : bool := forallb item_ok rep.

(** Modelled from the spec: "each item is attempted independently;
    failures are collected ... while successful items remain applied (no
    global rollback)". *)
Fixpoint each_item
    (op : list string -> list Row -> list Row * (error + Row))
    (call : list string -> BackendCall)
    (xs : list Content) (eng : Engine) : Engine * report :=
  match xs with
  | [] => (eng, [])
  | c :: rest =>
      let '(store', r) := op (path (row c)) (store eng) in
      let eng' := mkEngine (buffer eng) store'
                           (issued eng ++ [call (path (row c))]) in
      let '(eng'', rep) := each_item op call rest eng' in
      (eng'', (c, r) :: rep)
  end.

(** Modelled from the spec: [copySelection(selection)] "fails with
    UnsupportedOperation if any selected item has kind = dir. Otherwise
    stores {mode: copy, items: selection} in ClipboardBuffer, replacing
    any prior buffer. No I/O performed." *)
Definition copySelection (sel : list Content) (eng : Engine)
    : Engine * (error + unit) :=
  if existsb (fun c => String.eqb (kind (row c)) "dir") sel
  then (eng, inl UnsupportedOperation)
  else (mkEngine (Some (mkBuffer copy sel)) (store eng) (issued eng),
        inr tt).

(** Modelled from the spec: [cutSelection(selection)] "requires every
    item writable = true; fails with PermissionDenied otherwise. Stores
    {mode: cut, items: selection}." *)
Definition cutSelection (sel : list Content) (eng : Engine)
    : Engine * (error + unit) :=
  if forallb (fun c => writable (row c)) sel
  then (mkEngine (Some (mkBuffer cut sel)) (store eng) (issued eng),
        inr tt)
  else (eng, inl PermissionDenied).

(** Modelled from the spec: [pasteSelection(targetContainer)] "requires a
    non-empty ClipboardBuffer; fails with EmptyClipboard otherwise"; a
    backend copy of each item for [copy], a backend move of each item for
    [cut], the buffer being cleared once every move has succeeded. *)
Definition pasteSelection (target : list string) (eng : Engine)
    : Engine * (error + report) :=
  match buffer eng with
  | None => (eng, inl EmptyClipboard)
  | Some b =>
      match mode b with
      | copy =>
          let '(eng', rep) :=
            each_item (fun src => backend_copy src target)
                      (fun src => BCopy src target) (items b) eng in
          (eng', inr rep)
      | cut =>
          let '(eng', rep) :=
            each_item (fun src => backend_move src target)
                      (fun src => BMove src target) (items b) eng in
          if all_ok rep
          then (mkEngine None (store eng') (issued eng'), inr rep)
          else (eng', inr rep)
      end
  end.

(** Modelled from the spec: [deleteSelection(selection)] "requires every
    item writable = true. Issues backend delete per item"; the permission
    check is a validation error, raised before any backend call. *)
Definition deleteSelection (sel : list Content) (eng : Engine)
    : Engine * (error + report) :=
  if forallb (fun c => writable (row c)) sel
  then let '(eng', rep) := each_item backend_delete BDelete sel eng in
       (eng', inr rep)
  else (eng, inl PermissionDenied).

(** Modelled from the spec: the failures collected from a report. *)
Fixpoint failures (rep : report) : list (list string * error) :=
  match rep with
  | [] => []
  | (c, inl e) :: rest => (path (row c), e) :: failures rest
  | (_, inr _) :: rest => failures rest
  end.

(** Modelled from the spec: the names of the rows a batch has created, in
    the order of the report. *)
Fixpoint created_names (rep : report) : list string :=
  match rep with
  | [] => []
  | (_, inr r) :: rest => name r :: created_names rest
  | (_, inl _) :: rest => created_names rest
  end.

(** Modelled from the spec: a batch with failures is "reported as an
    aggregate error"; a validation error is raised as it is. *)
Definition settle_batch (r : error + report) : exn + unit :=
  match r with
  | inl e => inl (Raised e)
  | inr rep => if all_ok rep then inr tt else inl (Aggregate (failures rep))
  end.

(** Modelled from the spec: a validation error is raised as it is. *)
Definition settle (r : error + unit) : exn + unit :=
  match r with
  | inl e => inl (Raised e)
  | inr _ => inr tt
  end.

Section Handler.
(** How the engine finds the paste target in the model it is given is
    not part of the specification of the commands. *)
Variable pasteTarget : Model -> list string.

(** Modelled from the spec: the clipboard model answering the calls of
    the commands.  The operations read the selection of the model they
    are given, and reading it on [undefined] is a [TypeError]. *)
Definition handle (X : Type) (c : Commands.clipE X) (eng : Engine)
    : Engine * (exn + X) :=
  match c in Commands.clipE X return Engine * (exn + X) with
  | Commands.CopySelection None
  | Commands.CutSelection None
  | Commands.DeleteSelection None
  | Commands.PasteSelection None => (eng, inl TypeError)
  | Commands.CopySelection (Some m) =>
      let '(eng', r) := copySelection (selection m) eng in
      (eng', settle r)
  | Commands.CutSelection (Some m) =>
      let '(eng', r) := cutSelection (selection m) eng in
      (eng', settle r)
  | Commands.DeleteSelection (Some m) =>
      let '(eng', r) := deleteSelection (selection m) eng in
      (eng', settle_batch r)
  | Commands.PasteSelection (Some m) =>
      let '(eng', r) := pasteSelection (pasteTarget m) eng in
      (eng', settle_batch r)
  end.
End Handler.

End Clipboard.

(* ================================================================== *)
(** ** Sample data used to exercise the statements *)

Module Examples.
Import Tree Errors Prog Commands Clipboard.

Definition file_b : Content :=
  mkContent (mkRow ["a"; "b.txt"] "b.txt" "file" true) false "a/b.txt".

Definition file_ro : Content :=
  mkContent (mkRow ["a"; "ro.txt"] "ro.txt" "file" false) false "a/ro.txt".

Definition dir_a : Content :=
  mkContent (mkRow ["a"] "a" "dir" true) true "a".

Definition dir_c : Content :=
  mkContent (mkRow ["c"] "c" "dir" true) true "c".

Definition tree_root : Content :=
  mkContent (mkRow [] "" "dir" true) true "".

Definition model_of (sel : list Content) (last : option Content) : Model :=
  mkModel sel last tree_root.

Definition widget_of (m : option Model) : Widget :=
  mkWidget (mkTreeFinder m (option_map selection m))
           (Some "s3://bucket/data// ").

Definition tracker_of (sel : list Content) (last : option Content) : Tracker :=
  mkTracker (Some (widget_of (Some (model_of sel last)))).

Definition untitled : Row :=
  mkRow ["a"; "Untitled Folder"] "Untitled Folder" "dir" true.

Definition untitled_content : Content :=
  mkContent untitled true "a/Untitled Folder".

Definition renamed : Row := mkRow ["a"; "docs"] "docs" "dir" true.

(** Collaborators that succeed, except that downloading a bundle fails. *)
Definition sample_oracle (X : Type) (c : uiE X) : X :=
  match c in uiE X return X with
  | OpenNext _ _ => tt
  | DoRename _ _ => mkPromise 9 (inr renamed)
  | RenamerNext _ _ _ => tt
  | SetRow _ _ => tt
  | Download _ _ isContainer =>
      if isContainer then mkPromise 7 (inl (Raised NotFound))
      else mkPromise 3 (inr tt)
  | GetContentParent _ _ => mkPromise 1 (inr dir_a)
  | NewUntitled _ _ _ => mkPromise 2 (inr untitled)
  | Invalidate _ => tt
  | RevealAndSelectPath _ _ => mkPromise 4 (inr untitled_content)
  | RefreshNext _ _ => tt
  | ScrollIntoView _ _ => mkPromise 5 (inr tt)
  | WriteText _ => mkPromise 1 (inr tt)
  end.

Definition sample_store : list Row :=
  [ row dir_a; row file_b; row file_ro; row dir_c ].

Definition sample_engine : Engine := mkEngine None sample_store [].

End Examples.

(* ================================================================== *)
(** ** Strings and arrays *)

Import Tree Errors Prog Commands.

Lemma split_nonempty (sep : ascii) (s : string) : JS.split sep s <> [].
Proof.
  destruct s as [|a rest]; simpl; [discriminate|].
  destruct (Ascii.eqb a sep); [discriminate|].
  destruct (JS.split sep rest); discriminate.
Qed.

Lemma join_empty_cons (x : string) (xs : list string) :
  JS.join EmptyString (x :: xs) = (x ++ JS.join EmptyString xs)%string.
Proof.
  destruct xs as [|y ys]; simpl.
  - induction x as [|a x IH]; simpl; [reflexivity|]. now rewrite <- IH.
  - reflexivity.
Qed.

(** Splitting at a code unit and gluing the pieces back with nothing in
    between removes every occurrence of that code unit. *)
Lemma join_split_remove (sep : ascii) (s : string) :
  JS.join EmptyString (JS.split sep s) = JS.remove_char sep s.
Proof.
  induction s as [|a rest IH]; simpl; [reflexivity|].
  destruct (Ascii.eqb a sep).
  - rewrite join_empty_cons. simpl. exact IH.
  - destruct (JS.split sep rest) as [|piece pieces] eqn:E.
    + now apply split_nonempty in E.
    + rewrite join_empty_cons in *. simpl. now rewrite IH.
Qed.

Lemma append_assoc (a b c : string) :
  ((a ++ b) ++ c = a ++ (b ++ c))%string.
Proof. induction a as [|x a IH]; simpl; [reflexivity|]. now rewrite IH. Qed.

Lemma append_empty_r (a : string) : (a ++ EmptyString)%string = a.
Proof. induction a as [|x a IH]; simpl; [reflexivity|]. now rewrite IH. Qed.

Lemma all_chars_append (p : ascii -> bool) (a b : string) :
  JS.all_chars p (a ++ b)%string = JS.all_chars p a && JS.all_chars p b.
Proof.
  induction a as [|x a IH]; simpl; [reflexivity|].
  now rewrite IH, andb_assoc.
Qed.

(** What [strip_trailing] removes satisfies [p] throughout, and what it
    keeps does not end with a code unit satisfying [p]. *)
Lemma strip_trailing_spec (p : ascii -> bool) (s : string) :
  exists t,
    s = (JS.strip_trailing p s ++ t)%string /\
    JS.all_chars p t = true /\
    (forall a, JS.last_char (JS.strip_trailing p s) = Some a -> p a = false).
Proof.
  induction s as [|a rest [t (Heq & Hall & Hlast)]].
  - exists EmptyString. simpl. repeat split; intros; discriminate.
  - cbn [JS.strip_trailing].
    destruct (JS.all_chars p (String a rest)) eqn:Hs.
    + exists (String a rest). repeat split; auto. intros; discriminate.
    + exists t. repeat split; auto.
      * simpl. now rewrite <- Heq.
      * intros b Hb. simpl in Hb.
        destruct (JS.strip_trailing p rest) as [|c r'] eqn:Hr.
        -- injection Hb as <-. simpl in Heq. subst rest.
           simpl in Hs. rewrite Hall, andb_true_r in Hs. exact Hs.
        -- apply Hlast. exact Hb.
Qed.

Lemma last_char_append_nonempty (a : string) (c : ascii) (b : string) :
  JS.last_char (a ++ String c b)%string = JS.last_char (String c b).
Proof.
  induction a as [|x a IH]; [reflexivity|].
  change (String x a ++ String c b)%string
    with (String x (a ++ String c b)%string).
  cbn [JS.last_char]. rewrite IH.
  destruct (a ++ String c b)%string eqn:E; [|reflexivity].
  destruct a; discriminate.
Qed.

Lemma last_char_all (p : ascii -> bool) (s : string) (a : ascii) :
  JS.all_chars p s = true -> JS.last_char s = Some a -> p a = true.
Proof.
  induction s as [|x s IH]; simpl; [discriminate|].
  intros H. apply andb_prop in H as [Hx Hs].
  destruct s; [intros [= <-]; exact Hx | auto].
Qed.

Lemma getRelativePaths_from (acc : list string) (sel : list Content) :
  fold_left
    (fun allPaths file => allPaths ++ [JS.join "/" (getPathAtDepth file 1)])
    sel acc
  = (acc ++ map (fun c => JS.join "/" (skipn 1 (path (row c)))) sel)%list.
Proof.
  revert acc. induction sel as [|c sel IH]; intros acc; simpl.
  - now rewrite List.app_nil_r.
  - rewrite IH, <- List.app_assoc. reflexivity.
Qed.

Lemma getRelativePaths_map (sel : list Content) :
  _getRelativePaths sel
  = map (fun c => JS.join "/" (skipn 1 (path (row c)))) sel.
Proof. exact (getRelativePaths_from [] sel). Qed.

(* ================================================================== *)
(** ** Resource identifiers *)

(** C10: [idFromResource] is the resource name with every space removed,
    then an underscore, then the drive.  Hence two resources of one drive
    whose names are equal once spaces are removed get the same id, and the
    mapping is not injective: ["a b"] and ["ab"] on the same drive collide. *)
Theorem idFromResource_removes_spaces :
  (forall r : Filesystem.IFSResource,
     idFromResource r
     = (JS.remove_char " " (Filesystem.name r) ++ "_" ++ Filesystem.drive r)%string) /\
  (forall n1 n2 d : string,
     JS.remove_char " " n1 = JS.remove_char " " n2 ->
     idFromResource (Filesystem.mkResource n1 d)
     = idFromResource (Filesystem.mkResource n2 d)) /\
  (exists r1 r2 : Filesystem.IFSResource,
     Filesystem.drive r1 = Filesystem.drive r2 /\
     Filesystem.name r1 <> Filesystem.name r2 /\
     idFromResource r1 = idFromResource r2).
Proof.
  assert (Hid : forall r, idFromResource r
     = (JS.remove_char " " (Filesystem.name r) ++ "_" ++ Filesystem.drive r)%string).
  { intros r. unfold idFromResource. cbn [JS.join].
    now rewrite join_split_remove. }
  split; [exact Hid|]. split.
  - intros n1 n2 d H. rewrite !Hid. cbn [Filesystem.name Filesystem.drive].
    now rewrite H.
  - exists (Filesystem.mkResource "a b" "s3"), (Filesystem.mkResource "ab" "s3").
    split; [reflexivity|]. split; [discriminate|reflexivity].
Qed.

Lemma idFromResource_removes_spaces_witness :
  JS.remove_char " " "my data" = JS.remove_char " " "m y d a t a" /\
  idFromResource (Filesystem.mkResource "my data" "s3")
  = idFromResource (Filesystem.mkResource "m y d a t a" "s3").
Proof.
  split; [reflexivity|].
  apply (proj1 (proj2 idFromResource_removes_spaces)). reflexivity.
Defined.

(* ================================================================== *)
(** ** Enablement *)

Lemma selection_writable_with_model (sel : list Content)
    (last : option Content) (r : Content) (ps : option (list Content))
    (u : option string) :
  currentWidgetSelectionIsWritable
    (mkTracker
       (Some (mkWidget (mkTreeFinder (Some (mkModel sel last r)) ps) u)))
  = forallb (fun x => writable (row x)) sel.
Proof. reflexivity. Qed.

(** C8: the selection-writability predicate is [false] without a current
    widget and when the model (and so the selection read through it) is
    absent; on an empty selection it is [true], so the cut, delete and
    rename commands report themselves enabled with nothing selected. *)
Theorem selection_writable_absent_or_empty :
  currentWidgetSelectionIsWritable (mkTracker None) = false /\
  (forall (ps : option (list Content)) (u : option string),
     currentWidgetSelectionIsWritable
       (mkTracker (Some (mkWidget (mkTreeFinder None ps) u))) = false) /\
  (forall (ps : option (list Content)) (u : option string)
          (last : option Content) (r : Content),
     let t := mkTracker
                (Some (mkWidget
                         (mkTreeFinder (Some (mkModel [] last r)) ps) u)) in
     currentWidgetSelectionIsWritable t = true /\
     cut_isEnabled t = true /\
     delete_isEnabled t = true /\
     rename_isEnabled t = true).
Proof.
  split; [reflexivity|]. split; [reflexivity|].
  intros ps u last r t. repeat split.
Qed.

(* ================================================================== *)
(** ** Copying paths *)

Lemma trimEnd_decomposition (raw : string) :
  exists slashes spaces : string,
    raw = (trimEnd raw ++ slashes ++ spaces)%string /\
    JS.all_chars JS.is_slash slashes = true /\
    JS.all_chars JS.is_whitespace spaces = true /\
    JS.last_char (trimEnd raw) <> Some "/"%char /\
    (forall a, JS.last_char (trimEnd raw ++ slashes)%string = Some a ->
               JS.is_whitespace a = false).
Proof.
  unfold trimEnd, JS.replace_trailing_slashes, JS.trimEnd.
  destruct (strip_trailing_spec JS.is_whitespace raw) as (ws & H1 & Hws & L1).
  destruct (strip_trailing_spec JS.is_slash (JS.strip_trailing JS.is_whitespace raw))
    as (sl & H2 & Hsl & L2).
  exists sl, ws. repeat split; auto.
  - rewrite <- append_assoc, <- H2. exact H1.
  - intros H. apply L2 in H. discriminate.
  - rewrite <- H2. exact L1.
Qed.

(** C9: copy-relative-path writes one line per selected item, the item's
    path segments from depth 1 joined by a slash, the lines joined by a
    newline; copy-full-path writes the same lines, each prefixed by the
    widget URL (the empty string when unset) without its trailing white
    space and then without its trailing slashes, a single slash standing
    between the prefix and the relative path. *)
Theorem copy_path_commands_text (u : option string) (mo : option Model)
    (sel : list Content) (o : forall X, uiE X -> X) (t0 : nat) :
  let w := mkWidget (mkTreeFinder mo (Some sel)) u in
  let t := mkTracker (Some w) in
  let rel := fun c : Content => JS.join "/" (skipn 1 (path (row c))) in
  let raw := match u with Some x => x | None => EmptyString end in
  _getRelativePaths sel = map rel sel /\
  fst (fst (run (logging o) (copyRelativePath_execute t) [] t0))
  = [Ev (WriteText (JS.join newline (map rel sel)))] /\
  fst (fst (run (logging o) (copyFullPath_execute t) [] t0))
  = [Ev (WriteText
           (JS.join newline
              (map (fun c => (trimEnd raw ++ "/" ++ rel c)%string) sel)))] /\
  exists slashes spaces : string,
    raw = (trimEnd raw ++ slashes ++ spaces)%string /\
    JS.all_chars JS.is_slash slashes = true /\
    JS.all_chars JS.is_whitespace spaces = true /\
    JS.last_char (trimEnd raw) <> Some "/"%char /\
    (forall a, JS.last_char (trimEnd raw ++ slashes)%string = Some a ->
               JS.is_whitespace a = false).
Proof.
  intros w t rel raw. split; [apply getRelativePaths_map|]. split; [|split].
  - cbn. unfold relativePaths_text. rewrite getRelativePaths_map.
    destruct (outcome (o _ _)); reflexivity.
  - cbn. unfold fullPaths_text. rewrite getRelativePaths_map, map_map.
    cbn [url w JS.join]. fold raw.
    destruct (outcome (o _ _)); reflexivity.
  - apply trimEnd_decomposition.
Qed.

(* ================================================================== *)
(** ** Download *)

Lemma run_call_each {X : Type} (o : forall X, uiE X -> X)
    (cs : list (uiE X)) (k : list X -> prog uiE)
    (trace : list event) (t : nat) :
  run (logging o) (call_each cs k) trace t
  = run (logging o) (k (map (o X) cs)) (trace ++ map (@Ev X) cs) t.
Proof.
  revert k trace. induction cs as [|c cs IH]; intros k trace.
  - cbn. now rewrite List.app_nil_r.
  - cbn [call_each run]. unfold logging at 1. rewrite IH.
    cbn [map]. now rewrite <- List.app_assoc.
Qed.

Lemma list_max_In (x : nat) (l : list nat) : In x l -> x <= list_max l.
Proof.
  intros H. assert (Hall : Forall (fun k => k <= list_max l) l)
    by now apply list_max_le.
  rewrite Forall_forall in Hall. now apply Hall.
Qed.

(** C7: download makes one [widget.download] call per selected item, with
    [isContainer] set exactly for the items that have children (the
    directories, fetched as a bundle) and unset for the others (fetched as
    a single file); the command completes without error whatever each
    download settles with, and not before every one of them has settled. *)
Theorem download_all_settled (u : option string) (mo : option Model)
    (sel : list Content) (o : forall X, uiE X -> X) (t0 : nat) :
  let w := mkWidget (mkTreeFinder mo (Some sel)) u in
  let t := mkTracker (Some w) in
  let request := fun s : Content => Download w (pathstr s) (hasChildren s) in
  let finished :=
    Nat.max t0 (list_max (map (fun s => settles_at (o _ (request s))) sel)) in
  run (logging o) (download_execute t) [] t0
  = (map (fun s => Ev (request s)) sel, finished, None) /\
  (forall s, In s sel -> settles_at (o _ (request s)) <= finished).
Proof.
  intros w t request finished. split.
  - unfold download_execute.
    cbn [currentWidget t nonnull treefinder w panel_selection].
    rewrite run_call_each. cbn [run allSettled outcome settles_at app].
    rewrite !map_map. reflexivity.
  - intros s Hs. unfold finished.
    etransitivity; [|apply Nat.le_max_r].
    apply list_max_In.
    apply (in_map (fun s => settles_at (o _ (request s)))) in Hs. exact Hs.
Qed.

Lemma download_all_settled_witness :
  In Examples.dir_c [Examples.file_b; Examples.dir_c] /\
  settles_at
    (Examples.sample_oracle _
       (Download (Examples.widget_of
                    (Some (Examples.model_of
                             [Examples.file_b; Examples.dir_c] None)))
                 "c" true))
  <= 7.
Proof.
  split; [simpl; auto|].
  apply (proj2 (download_all_settled
                  (Some "s3://bucket/data// ")
                  (Some (Examples.model_of
                           [Examples.file_b; Examples.dir_c] None))
                  [Examples.file_b; Examples.dir_c]
                  Examples.sample_oracle 0)
           Examples.dir_c).
  simpl; auto.
Defined.

(* ================================================================== *)
(** ** Rename *)

(** C6, as the claim states it, fails: with two writable items selected the
    rename command is enabled, and a rename request raises nothing; it opens
    the editor on the first selected item. *)
Lemma rename_two_items_counterexample :
  let sel := [Examples.file_b; Examples.dir_c] in
  let m := Examples.model_of sel None in
  let w := Examples.widget_of (Some m) in
  List.length sel <> 1 /\
  rename_isEnabled (mkTracker (Some w)) = true /\
  run (logging Examples.sample_oracle)
      (rename_execute (mkTracker (Some w))) [] 0
  = ([ Ev (DoRename w (Some Examples.file_b));
       Ev (RenamerNext m "docs" (Some Examples.file_b));
       Ev (SetRow Examples.file_b Examples.renamed) ],
     0, None) /\
  snd (run (logging Examples.sample_oracle)
           (rename_execute (mkTracker (Some w))) [] 0)
  <> Some (Raised UnsupportedOperation).
Proof.
  cbv zeta. split; [discriminate|]. split; [reflexivity|].
  split; [reflexivity|]. discriminate.
Qed.

(** C6, amended: a rename request does not look at the size of the
    selection and raises no [UnsupportedOperation]: on a non-empty selection
    it opens the rename editor on the first selected item, whatever the
    number of selected items, returns at once, and when the editor resolves
    it publishes the new name for that item and rewrites its row.  The
    command is enabled exactly when every selected item is writable. *)
Theorem rename_first_selected (u : option string) (m : Model)
    (c : Content) (rest : list Content)
    (o : forall X, uiE X -> X) (t0 : nat) :
  let w := mkWidget (mkTreeFinder (Some m) (Some (c :: rest))) u in
  let t := mkTracker (Some w) in
  rename_isEnabled t = forallb (fun x => writable (row x)) (selection m) /\
  run (logging o) (rename_execute t) [] t0
  = (Ev (DoRename w (Some c))
       :: match outcome (o _ (DoRename w (Some c))) with
          | inr newContent =>
              [ Ev (RenamerNext m (name newContent) (Some c));
                Ev (SetRow c newContent) ]
          | inl _ => []
          end,
     t0, None) /\
  (forall t' : Tracker,
     snd (run (logging o) (rename_execute t') [] t0)
     <> Some (Raised UnsupportedOperation)).
Proof.
  intros w t. split; [reflexivity|]. split.
  - cbn. destruct (outcome (o _ _)); reflexivity.
  - intros [[[[mo [sel|]] u']|]]; cbn; try discriminate.
    destruct (outcome (o _ _)); cbn; try discriminate.
    destruct mo, sel; cbn; discriminate.
Qed.

(* ================================================================== *)
(** ** Create folder *)

Section CreateFolderFacts.
Variable Path_fromarray : list string -> string.
Variable getRefreshTargets : list Row -> Content -> list Content.
Variable o : forall X, uiE X -> X.

Ltac run_create_folder :=
  unfold create_folder_execute, create_folder_target;
  cbn [currentWidget treefinder model nonnull];
  repeat match goal with
         | H : selectedLast _ = _ |- _ => rewrite H
         | H : hasChildren _ = _ |- _ => rewrite H
         end;
  cbn [negb run logging];
  repeat match goal with
         | H : outcome _ = _ |- _ => rewrite H; cbn [run logging]
         end;
  cbn [app fst snd].

(** C5: create-folder creates under the item selected last when that item
    has children (a directory), under the parent answered by
    [getContentParent] when it has none (a file), and under the root when
    nothing is selected, the root being a directory.  The backend is asked
    for an untitled directory at the path of that target; once it answers,
    the target is invalidated, the new node is revealed and scrolled to, and
    the rename editor is opened on it.  When the creation fails nothing is
    invalidated and no editor is opened. *)
Theorem create_folder_target_then_rename (u : option string) (m : Model)
    (ps : option (list Content)) (t0 : nat) (target : Content) (newRow : Row) (content : Content)
    (newContent : Row) :
  let w := mkWidget (mkTreeFinder (Some m) ps) u in
  let t := mkTracker (Some w) in
  let creation :=
    NewUntitled w "directory" (Path_fromarray (path (row target))) in
  let after_creation :=
    [ Ev (Invalidate target);
      Ev (RevealAndSelectPath m (path newRow));
      Ev (RefreshNext m (getRefreshTargets [row target] (root m)));
      Ev (ScrollIntoView w (pathstr content));
      Ev (DoRename w (Some content));
      Ev (RenamerNext m (name newContent) (Some content));
      Ev (SetRow content newContent) ] in
  let calls :=
    fst (fst (run (logging o)
                (create_folder_execute Path_fromarray getRefreshTargets t)
                [] t0)) in
  let result :=
    snd (run (logging o)
           (create_folder_execute Path_fromarray getRefreshTargets t)
           [] t0) in
  (selectedLast m = Some target /\ hasChildren target = true \/
   selectedLast m = None /\ target = root m /\ hasChildren (root m) = true \/
   exists file, selectedLast m = Some file /\ hasChildren file = false /\
                outcome (o _ (GetContentParent file (root m))) = inr target) ->
  let asked_parent :=
    match selectedLast m with
    | Some file =>
        if hasChildren file then []
        else [Ev (GetContentParent file (root m))]
    | None => []
    end in
  (outcome (o _ creation) = inr newRow ->
   outcome (o _ (RevealAndSelectPath m (path newRow))) = inr content ->
   outcome (o _ (ScrollIntoView w (pathstr content))) = inr tt ->
   outcome (o _ (DoRename w (Some content))) = inr newContent ->
   calls = asked_parent ++ Ev creation :: after_creation /\ result = None) /\
  (forall e, outcome (o _ creation) = inl e ->
             calls = asked_parent ++ [Ev creation] /\ result = Some e).
Proof.
  intros w t creation after_creation calls result Htarget asked_parent.
  subst calls result asked_parent creation after_creation t w.
  destruct Htarget as [[Hl Hc] | [(Hl & -> & Hc) | (file & Hl & Hc & Hp)]].
  - split; [intros H1 H2 H3 H4 | intros e H1];
      run_create_folder; split; reflexivity.
  - split; [intros H1 H2 H3 H4 | intros e H1];
      run_create_folder; split; reflexivity.
  - split; [intros H1 H2 H3 H4 | intros e H1];
      run_create_folder; split; reflexivity.
Qed.

End CreateFolderFacts.

Lemma create_folder_target_then_rename_witness :
  let grt := fun (_ : list Row) (r : Content) => [r] in
  let run_on := fun t =>
    run (logging Examples.sample_oracle)
        (create_folder_execute (JS.join "/") grt t) [] 0 in
  let w_file := Examples.widget_of
                  (Some (Examples.model_of [Examples.file_b]
                           (Some Examples.file_b))) in
  let w_none := Examples.widget_of (Some (Examples.model_of [] None)) in
  (fst (fst (run_on (mkTracker (Some w_file))))
   = [ Ev (GetContentParent Examples.file_b Examples.tree_root);
       Ev (NewUntitled w_file "directory" "a");
       Ev (Invalidate Examples.dir_a);
       Ev (RevealAndSelectPath
             (Examples.model_of [Examples.file_b] (Some Examples.file_b))
             ["a"; "Untitled Folder"]);
       Ev (RefreshNext
             (Examples.model_of [Examples.file_b] (Some Examples.file_b))
             [Examples.tree_root]);
       Ev (ScrollIntoView w_file "a/Untitled Folder");
       Ev (DoRename w_file (Some Examples.untitled_content));
       Ev (RenamerNext
             (Examples.model_of [Examples.file_b] (Some Examples.file_b))
             "docs" (Some Examples.untitled_content));
       Ev (SetRow Examples.untitled_content Examples.renamed) ] /\
   snd (run_on (mkTracker (Some w_file))) = None) /\
  (fst (fst (run_on (mkTracker (Some w_none))))
   = [ Ev (NewUntitled w_none "directory" EmptyString);
       Ev (Invalidate Examples.tree_root);
       Ev (RevealAndSelectPath (Examples.model_of [] None)
             ["a"; "Untitled Folder"]);
       Ev (RefreshNext (Examples.model_of [] None) [Examples.tree_root]);
       Ev (ScrollIntoView w_none "a/Untitled Folder");
       Ev (DoRename w_none (Some Examples.untitled_content));
       Ev (RenamerNext (Examples.model_of [] None) "docs"
             (Some Examples.untitled_content));
       Ev (SetRow Examples.untitled_content Examples.renamed) ] /\
   snd (run_on (mkTracker (Some w_none))) = None).
Proof.
  cbv zeta. split.
  - apply (proj1 (create_folder_target_then_rename
                    (JS.join "/") (fun _ r => [r]) Examples.sample_oracle
                    (Some "s3://bucket/data// ")
                    (Examples.model_of [Examples.file_b] (Some Examples.file_b))
                    (Some [Examples.file_b]) 0 Examples.dir_a Examples.untitled
                    Examples.untitled_content Examples.renamed
                    (or_intror (or_intror
                       (ex_intro _ Examples.file_b
                          (conj eq_refl (conj eq_refl eq_refl)))))));
      reflexivity.
  - apply (proj1 (create_folder_target_then_rename
                    (JS.join "/") (fun _ r => [r]) Examples.sample_oracle
                    (Some "s3://bucket/data// ")
                    (Examples.model_of [] None)
                    (Some []) 0 Examples.tree_root Examples.untitled
                    Examples.untitled_content Examples.renamed
                    (or_intror (or_introl
                       (conj eq_refl (conj eq_refl eq_refl))))));
      reflexivity.
Defined.

(* ================================================================== *)
(** ** The clipboard engine: disambiguated names *)

Import Clipboard.

Lemma string_append_inj_l (a b c : string) :
  (a ++ b)%string = (a ++ c)%string -> b = c.
Proof.
  induction a as [|x a IH]; simpl; [auto|].
  intros [= H]. auto.
Qed.

Lemma string_length_append (a b : string) :
  String.length (a ++ b) = String.length a + String.length b.
Proof. induction a as [|x a IH]; simpl; [reflexivity|]. now rewrite IH. Qed.

Lemma string_of_nat_inj (j k : nat) :
  NilEmpty.string_of_uint (Nat.to_uint j)
  = NilEmpty.string_of_uint (Nat.to_uint k) -> j = k.
Proof.
  intros H.
  assert (Hu : Some (Nat.to_uint j) = Some (Nat.to_uint k)).
  { rewrite <- !NilEmpty.usu. now rewrite H. }
  injection Hu as Hu.
  rewrite <- (Unsigned.of_to j), <- (Unsigned.of_to k). now rewrite Hu.
Qed.

Lemma suffixed_inj (name : string) (j k : nat) :
  suffixed name j = suffixed name k -> j = k.
Proof.
  unfold suffixed. intros H.
  apply string_append_inj_l in H. apply (string_append_inj_l "-") in H.
  now apply string_of_nat_inj.
Qed.

Lemma suffixed_not_name (name : string) (k : nat) : suffixed name k <> name.
Proof.
  unfold suffixed. intros H.
  apply (f_equal String.length) in H.
  rewrite string_length_append in H. simpl in H. lia.
Qed.

Lemma mem_In (x : string) (xs : list string) : mem x xs = true <-> In x xs.
Proof.
  unfold mem. rewrite existsb_exists. split.
  - intros (y & Hy & E). apply String.eqb_eq in E. now subst.
  - intros H. exists x. split; [exact H | apply String.eqb_refl].
Qed.

Lemma mem_not_In (x : string) (xs : list string) :
  mem x xs = false <-> ~ In x xs.
Proof.
  rewrite <- mem_In. destruct (mem x xs); split; congruence.
Qed.

(** The search stops at the least free suffix, provided one lies within
    reach of the fuel. *)
Lemma first_free_least (name : string) (taken : list string) :
  forall fuel k,
    (exists j, k <= j <= k + fuel /\ ~ In (suffixed name j) taken) ->
    exists j,
      first_free fuel k name taken = suffixed name j /\
      k <= j /\
      ~ In (suffixed name j) taken /\
      (forall i, k <= i < j -> In (suffixed name i) taken).
Proof.
  induction fuel as [|fuel IH]; intros k (j & Hj & Hfree).
  - assert (j = k) by lia. subst j. exists k. simpl.
    repeat split; auto. intros i Hi. lia.
  - simpl. destruct (mem (suffixed name k) taken) eqn:Hk.
    + apply mem_In in Hk.
      assert (Hne : j <> k) by (intros ->; contradiction).
      destruct (IH (S k)) as (j' & E & Hle & Hf & Hbelow).
      { exists j. split; [lia | exact Hfree]. }
      exists j'. repeat split; auto; try lia.
      intros i Hi. destruct (Nat.eq_dec i k) as [->|Hik]; [exact Hk|].
      apply Hbelow. lia.
    + apply mem_not_In in Hk. exists k. repeat split; auto.
      intros i Hi. lia.
Qed.

Lemma suffixes_NoDup (name : string) (k n : nat) :
  NoDup (map (suffixed name) (seq k n)).
Proof.
  apply Injective_map_NoDup; [|apply seq_NoDup].
  intros a b. apply suffixed_inj.
Qed.

(** Pigeonhole: when the name is taken, one of the first [length taken]
    suffixes is free. *)
Lemma some_suffix_free (name : string) (taken : list string) :
  In name taken ->
  exists j, 1 <= j <= List.length taken /\ ~ In (suffixed name j) taken.
Proof.
  intros Hname.
  destruct (existsb (fun j => negb (mem (suffixed name j) taken))
                    (seq 1 (List.length taken))) eqn:E.
  - apply existsb_exists in E as (j & Hj & Hfree).
    apply in_seq in Hj. apply negb_true_iff, mem_not_In in Hfree.
    exists j. split; [lia | exact Hfree].
  - exfalso.
    assert (Hall : forall j, In j (seq 1 (List.length taken)) ->
                             In (suffixed name j) taken).
    { intros j Hj. apply mem_In.
      destruct (mem (suffixed name j) taken) eqn:M; [reflexivity|].
      assert (existsb (fun j => negb (mem (suffixed name j) taken))
                      (seq 1 (List.length taken)) = true).
      { apply existsb_exists. exists j. now rewrite M. }
      congruence. }
    assert (Hnd : NoDup (name :: map (suffixed name)
                                     (seq 1 (List.length taken)))).
    { constructor; [|apply suffixes_NoDup].
      intros Hin. apply in_map_iff in Hin as (j & Hj & _).
      now apply suffixed_not_name in Hj. }
    assert (Hincl : incl (name :: map (suffixed name)
                                      (seq 1 (List.length taken))) taken).
    { intros x [<-|Hx]; [exact Hname|].
      apply in_map_iff in Hx as (j & <- & Hj). now apply Hall. }
    pose proof (NoDup_incl_length Hnd Hincl) as Hlen.
    simpl in Hlen. rewrite length_map, length_seq in Hlen. lia.
Qed.

(** The disambiguated name is free; it is the name itself when that is
    free, and otherwise the name with the least free numeric suffix. *)
Lemma disambiguate_spec (name : string) (taken : list string) :
  ~ In (disambiguate name taken) taken /\
  (~ In name taken -> disambiguate name taken = name) /\
  (In name taken ->
   exists k, 1 <= k /\
             disambiguate name taken = suffixed name k /\
             (forall i, 1 <= i < k -> In (suffixed name i) taken)).
Proof.
  unfold disambiguate. destruct (mem name taken) eqn:M.
  - apply mem_In in M.
    destruct (first_free_least name taken (List.length taken) 1)
      as (j & E & Hle & Hfree & Hbelow).
    { destruct (some_suffix_free name taken M) as (j & Hj & Hf).
      exists j. split; [lia | exact Hf]. }
    rewrite E. repeat split; auto; [contradiction|].
    intros _. exists j. auto.
  - apply mem_not_In in M. repeat split; auto. contradiction.
Qed.

(* ================================================================== *)
(** ** The clipboard engine: the store *)

Lemma path_eqb_refl (p : list string) : path_eqb p p = true.
Proof.
  induction p as [|a p IH]; simpl; [reflexivity|].
  now rewrite String.eqb_refl, IH.
Qed.

Lemma lookup_app (p : list string) (st : list Row) (x r : Row) :
  lookup p st = Some r -> lookup p (st ++ [x]) = Some r.
Proof.
  unfold lookup. induction st as [|y st IH]; simpl; [discriminate|].
  destruct (path_eqb (path y) p); auto.
Qed.

Lemma is_container_app (p : list string) (st : list Row) (x : Row) :
  is_container p st = true -> is_container p (st ++ [x]) = true.
Proof.
  unfold is_container. destruct (lookup p st) as [r|] eqn:E; [|discriminate].
  now rewrite (lookup_app _ _ x _ E).
Qed.

(** A row added directly under [dest] adds its name to the siblings. *)
Lemma child_names_new (dest : list string) (st : list Row)
    (n k : string) (w : bool) :
  child_names dest (st ++ [mkRow (dest ++ [n]) n k w])
  = child_names dest st ++ [n].
Proof.
  unfold child_names. rewrite filter_app, map_app. f_equal.
  cbn [filter path].
  destruct (dest ++ [n]) as [|a q] eqn:E.
  - destruct dest; discriminate.
  - rewrite <- E, removelast_last, path_eqb_refl. cbn [map path].
    unfold entry_name. now rewrite last_last.
Qed.

(** One backend copy: the new row sits directly under the container, under
    the disambiguated name of the source. *)
Lemma backend_copy_ok (src dest : list string) (st : list Row) (r : Row) :
  lookup src st = Some r ->
  is_container dest st = true ->
  let n := disambiguate (entry_name src) (child_names dest st) in
  let r' := mkRow (dest ++ [n]) n (kind r) (writable r) in
  backend_copy src dest st = (st ++ [r'], inr r').
Proof.
  intros Hl Hc. unfold backend_copy. now rewrite Hl, Hc.
Qed.

Lemma backend_copy_cases (src dest : list string) (st : list Row) :
  (exists r, lookup src st = Some r /\ is_container dest st = true /\
             backend_copy src dest st
             = (st ++ [mkRow (dest ++ [disambiguate (entry_name src)
                                         (child_names dest st)])
                             (disambiguate (entry_name src)
                                (child_names dest st))
                             (kind r) (writable r)],
                inr (mkRow (dest ++ [disambiguate (entry_name src)
                                       (child_names dest st)])
                           (disambiguate (entry_name src)
                              (child_names dest st))
                           (kind r) (writable r)))) \/
  backend_copy src dest st = (st, inl NotFound).
Proof.
  unfold backend_copy. destruct (lookup src st) as [r|]; [|now right].
  destruct (is_container dest st); [|now right].
  left. exists r. auto.
Qed.

Lemma each_item_frame
    (op : list string -> list Row -> list Row * (error + Row))
    (call : list string -> BackendCall) (xs : list Content) (eng : Engine) :
  buffer (fst (each_item op call xs eng)) = buffer eng /\
  issued (fst (each_item op call xs eng))
  = issued eng ++ map (fun c => call (path (row c))) xs /\
  map fst (snd (each_item op call xs eng)) = xs.
Proof.
  revert eng. induction xs as [|c xs IH]; intros eng; simpl.
  - now rewrite List.app_nil_r.
  - destruct (op (path (row c)) (store eng)) as [st' res].
    specialize (IH (mkEngine (buffer eng) st'
                             (issued eng ++ [call (path (row c))]))).
    destruct (each_item op call xs _) as [eng'' rep].
    simpl in *. destruct IH as (Hb & Hi & Hm).
    rewrite Hb, Hi, Hm, <- List.app_assoc. auto.
Qed.

(* ================================================================== *)
(** ** The clipboard engine: validation *)

Lemma has_dir_iff (sel : list Content) :
  existsb (fun c => String.eqb (kind (row c)) "dir") sel = true <->
  exists c, In c sel /\ kind (row c) = "dir".
Proof.
  rewrite existsb_exists. split; intros (c & Hc & E); exists c; split; auto.
  - now apply String.eqb_eq.
  - now apply String.eqb_eq.
Qed.

Lemma no_dir_iff (sel : list Content) :
  existsb (fun c => String.eqb (kind (row c)) "dir") sel = false <->
  forall c, In c sel -> kind (row c) <> "dir".
Proof.
  split.
  - intros E c Hc Hk.
    assert (existsb (fun c => String.eqb (kind (row c)) "dir") sel = true)
      by (apply has_dir_iff; eauto).
    congruence.
  - intros H.
    destruct (existsb (fun c => String.eqb (kind (row c)) "dir") sel) eqn:E;
      [|reflexivity].
    apply has_dir_iff in E as (c & Hc & Hk). now apply H in Hc.
Qed.

Lemma not_all_writable_iff (sel : list Content) :
  forallb (fun c => writable (row c)) sel = false <->
  exists c, In c sel /\ writable (row c) = false.
Proof.
  induction sel as [|x sel IH]; simpl.
  - split; [discriminate | intros (c & [] & _)].
  - rewrite andb_false_iff, IH. split.
    + intros [H | (c & Hc & Hw)]; [exists x | exists c]; auto.
    + intros (c & [<- | Hc] & Hw); [left | right; exists c]; auto.
Qed.

(** C1: a copy of a selection that contains a directory fails with
    [UnsupportedOperation]; the engine is left as it was, prior buffer
    included, and no backend call is issued (the command is also hidden for
    such a selection).  A copy of a selection of files only stores
    [{mode: copy, items: selection}] in place of any prior buffer, again
    without a backend call. *)
Theorem copy_rejects_directories (pasteTarget : Model -> list string)
    (sel : list Content) (last : option Content) (r : Content)
    (ps : option (list Content)) (u : option string)
    (eng : Engine) (t0 : nat) :
  let m := mkModel sel last r in
  let t := mkTracker (Some (mkWidget (mkTreeFinder (Some m) ps) u)) in
  let stored := mkEngine (Some (mkBuffer copy sel)) (store eng) (issued eng) in
  ((exists c, In c sel /\ kind (row c) = "dir") ->
   copySelection sel eng = (eng, inl UnsupportedOperation) /\
   run (handle pasteTarget) (copy_execute t) eng t0
   = (eng, t0, Some (Raised UnsupportedOperation)) /\
   copy_isVisible t = false) /\
  ((forall c, In c sel -> kind (row c) <> "dir") ->
   copySelection sel eng = (stored, inr tt) /\
   run (handle pasteTarget) (copy_execute t) eng t0 = (stored, t0, None) /\
   copy_isVisible t = true).
Proof.
  intros m t stored. split; intros H.
  - apply has_dir_iff in H.
    cbn. unfold copySelection. rewrite H. auto.
  - apply no_dir_iff in H.
    cbn. unfold copySelection. rewrite H. auto.
Qed.

Lemma copy_rejects_directories_witness :
  let prior := mkEngine (Some (mkBuffer cut [Examples.file_b]))
                        Examples.sample_store [] in
  (exists c, In c [Examples.file_b; Examples.dir_c] /\ kind (row c) = "dir") /\
  copySelection [Examples.file_b; Examples.dir_c] prior
  = (prior, inl UnsupportedOperation) /\
  (forall c, In c [Examples.file_b; Examples.file_ro] ->
             kind (row c) <> "dir") /\
  copySelection [Examples.file_b; Examples.file_ro] prior
  = (mkEngine (Some (mkBuffer copy [Examples.file_b; Examples.file_ro]))
              Examples.sample_store [],
     inr tt).
Proof.
  cbv zeta.
  assert (Hdir : exists c, In c [Examples.file_b; Examples.dir_c] /\
                           kind (row c) = "dir").
  { exists Examples.dir_c. simpl. auto. }
  assert (Hfiles : forall c, In c [Examples.file_b; Examples.file_ro] ->
                             kind (row c) <> "dir").
  { intros c [<- | [<- | []]]; discriminate. }
  split; [exact Hdir|]. split.
  - apply (proj1 (copy_rejects_directories
                    (fun _ => []) [Examples.file_b; Examples.dir_c] None
                    Examples.tree_root None None
                    (mkEngine (Some (mkBuffer cut [Examples.file_b]))
                              Examples.sample_store []) 0)).
    exact Hdir.
  - split; [exact Hfiles|].
    apply (proj2 (copy_rejects_directories
                    (fun _ => []) [Examples.file_b; Examples.file_ro] None
                    Examples.tree_root None None
                    (mkEngine (Some (mkBuffer cut [Examples.file_b]))
                              Examples.sample_store []) 0)).
    exact Hfiles.
Defined.

(** C4: cut and delete require every selected item to be writable: when
    some selected item is not, both fail with [PermissionDenied], the
    engine is left as it was and no backend call is issued (and the two
    commands report themselves disabled); when every item is writable, cut
    stores the cut buffer and delete goes on to the backend. *)
Theorem cut_delete_require_writable (pasteTarget : Model -> list string)
    (sel : list Content) (last : option Content) (r : Content)
    (ps : option (list Content)) (u : option string)
    (eng : Engine) (t0 : nat) :
  let m := mkModel sel last r in
  let t := mkTracker (Some (mkWidget (mkTreeFinder (Some m) ps) u)) in
  ((exists c, In c sel /\ writable (row c) = false) ->
   cutSelection sel eng = (eng, inl PermissionDenied) /\
   deleteSelection sel eng = (eng, inl PermissionDenied) /\
   run (handle pasteTarget) (cut_execute t) eng t0
   = (eng, t0, Some (Raised PermissionDenied)) /\
   run (handle pasteTarget) (delete_execute t) eng t0
   = (eng, t0, Some (Raised PermissionDenied)) /\
   cut_isEnabled t = false /\
   delete_isEnabled t = false) /\
  ((forall c, In c sel -> writable (row c) = true) ->
   cutSelection sel eng
   = (mkEngine (Some (mkBuffer cut sel)) (store eng) (issued eng), inr tt) /\
   deleteSelection sel eng
   = (fst (each_item backend_delete BDelete sel eng),
      inr (snd (each_item backend_delete BDelete sel eng))) /\
   cut_isEnabled t = true /\
   delete_isEnabled t = true).
Proof.
  intros m t. split; intros H.
  - apply not_all_writable_iff in H.
    cbn. unfold cutSelection, deleteSelection. rewrite H. repeat split.
  - apply (forallb_forall (fun c => writable (row c))) in H.
    cbn. unfold cutSelection, deleteSelection. rewrite H.
    destruct (each_item backend_delete BDelete sel eng). repeat split.
Qed.

Lemma cut_delete_require_writable_witness :
  (exists c, In c [Examples.file_b; Examples.file_ro] /\
             writable (row c) = false) /\
  cutSelection [Examples.file_b; Examples.file_ro] Examples.sample_engine
  = (Examples.sample_engine, inl PermissionDenied) /\
  deleteSelection [Examples.file_b; Examples.file_ro] Examples.sample_engine
  = (Examples.sample_engine, inl PermissionDenied).
Proof.
  assert (Hro : exists c, In c [Examples.file_b; Examples.file_ro] /\
                          writable (row c) = false).
  { exists Examples.file_ro. simpl. auto. }
  split; [exact Hro|].
  destruct (proj1 (cut_delete_require_writable
                     (fun _ => []) [Examples.file_b; Examples.file_ro] None
                     Examples.tree_root None None Examples.sample_engine 0)
             Hro)
    as (Hcut & Hdel & _).
  split; [exact Hcut | exact Hdel].
Defined.

(* ================================================================== *)
(** ** The clipboard engine: cut and paste *)

(** C2: a cut buffer is used once.  For a selection of writable items the
    cut succeeds and stores the buffer; a paste that then succeeds (every
    move reported without error) has issued one backend move per item and
    leaves the buffer empty, so that a second paste, into whatever target,
    fails with [EmptyClipboard] and changes nothing. *)
Theorem cut_buffer_single_use (pasteTarget : Model -> list string)
    (sel : list Content) (eng eng2 : Engine) (target target' : list string)
    (rep : report) (m' : Model) (ps : option (list Content))
    (u : option string) (t0 : nat) :
  (forall c, In c sel -> writable (row c) = true) ->
  pasteSelection target (fst (cutSelection sel eng)) = (eng2, inr rep) ->
  all_ok rep = true ->
  snd (cutSelection sel eng) = inr tt /\
  buffer (fst (cutSelection sel eng)) = Some (mkBuffer cut sel) /\
  map fst rep = sel /\
  issued eng2 = issued eng ++ map (fun c => BMove (path (row c)) target) sel /\
  buffer eng2 = None /\
  pasteSelection target' eng2 = (eng2, inl EmptyClipboard) /\
  run (handle pasteTarget)
      (paste_execute
         (mkTracker (Some (mkWidget (mkTreeFinder (Some m') ps) u))))
      eng2 t0
  = (eng2, t0, Some (Raised EmptyClipboard)).
Proof.
  intros Hw Hpaste Hok.
  apply (forallb_forall (fun c => writable (row c))) in Hw.
  unfold cutSelection in *. rewrite Hw in *. cbn [fst snd] in *.
  unfold pasteSelection in Hpaste. cbn [buffer mode items] in Hpaste.
  pose proof (each_item_frame (fun src => backend_move src target)
                (fun src => BMove src target) sel
                (mkEngine (Some (mkBuffer cut sel)) (store eng) (issued eng)))
    as (_ & Hissued & Hitems).
  destruct (each_item _ _ sel _) as [eng1 rep1]. cbn [fst snd] in *.
  destruct (all_ok rep1) eqn:Hall.
  - injection Hpaste as <- <-. cbn [issued buffer] in *.
    repeat split; auto.
  - injection Hpaste as <- <-. congruence.
Qed.

Lemma cut_buffer_single_use_witness :
  let pasted :=
    fst (pasteSelection ["c"]
           (fst (cutSelection [Examples.file_b] Examples.sample_engine))) in
  issued pasted = [BMove ["a"; "b.txt"] ["c"]] /\
  buffer pasted = None /\
  pasteSelection ["c"] pasted = (pasted, inl EmptyClipboard).
Proof.
  cbv zeta.
  assert (Hw : forall c, In c [Examples.file_b] -> writable (row c) = true).
  { intros c [<- | []]. reflexivity. }
  destruct (cut_buffer_single_use
              (fun _ => ["c"]) [Examples.file_b] Examples.sample_engine
              (fst (pasteSelection ["c"]
                      (fst (cutSelection [Examples.file_b]
                              Examples.sample_engine))))
              ["c"] ["c"]
              [(Examples.file_b,
                inr (mkRow ["c"; "b.txt"] "b.txt" "file" true))]
              (Examples.model_of [] None) None None 0
              Hw eq_refl eq_refl)
    as (_ & _ & _ & Hissued & Hbuffer & Hsecond & _).
  split; [exact Hissued|]. split; [exact Hbuffer | exact Hsecond].
Defined.

(* ================================================================== *)
(** ** The clipboard engine: copy and paste *)

(** A batch of copies into one container: the sibling names gain the
    created names, stay free of duplicates, and every created row carries
    the name of its source or that name with a numeric suffix. *)
Lemma each_copy_names (target : list string) (xs : list Content) :
  forall eng eng' rep,
    each_item (fun src => backend_copy src target)
              (fun src => BCopy src target) xs eng = (eng', rep) ->
    exists created,
      child_names target (store eng')
      = child_names target (store eng) ++ created /\
      (NoDup (child_names target (store eng)) ->
       NoDup (child_names target (store eng'))) /\
      Forall (fun x : Content * (error + Row) =>
                match snd x with
                | inr r' =>
                    path r' = target ++ [name r'] /\
                    In (name r') created /\
                    (name r' = entry_name (path (row (fst x))) \/
                     exists k, 1 <= k /\
                       name r' = suffixed (entry_name (path (row (fst x)))) k)
                | inl e => e = NotFound
                end) rep.
Proof.
  induction xs as [|c xs IH]; intros eng eng' rep H; simpl in H.
  - injection H as <- <-. exists []. rewrite List.app_nil_r. auto.
  - destruct (backend_copy_cases (path (row c)) target (store eng))
      as [(r & Hl & Hc & E) | E]; rewrite E in H; clear E.
    + set (n := disambiguate (entry_name (path (row c)))
                  (child_names target (store eng))) in *.
      destruct (each_item _ _ xs _) as [eng1 rep1] eqn:Hrest.
      injection H as <- <-.
      apply IH in Hrest as (created & Hnames & Hnd & Hall).
      cbn [store] in Hnames, Hnd. rewrite child_names_new in Hnames, Hnd.
      destruct (disambiguate_spec (entry_name (path (row c)))
                  (child_names target (store eng))) as (Hfree & Hkeep & Hsuf).
      fold n in Hfree, Hkeep, Hsuf.
      exists (n :: created). split; [|split].
      * rewrite Hnames, <- List.app_assoc. reflexivity.
      * intros Hnd0. apply Hnd.
        apply NoDup_app; [exact Hnd0 | repeat constructor; simpl; tauto |].
        intros x Hx [<- | []]. contradiction.
      * constructor.
        -- cbn [snd fst path name]. split; [reflexivity|].
           split; [now left|].
           destruct (mem (entry_name (path (row c)))
                         (child_names target (store eng))) eqn:M.
           ++ apply mem_In, Hsuf in M as (k & Hk & Ek & _). right. eauto.
           ++ apply mem_not_In, Hkeep in M. now left.
        -- eapply Forall_impl; [|exact Hall].
           intros [c' [e|r']]; cbn [snd fst]; auto.
           intros (Hp & Hin & Hn). repeat split; auto. now right.
    + destruct (each_item _ _ xs _) as [eng1 rep1] eqn:Hrest.
      injection H as <- <-.
      apply IH in Hrest as (created & Hnames & Hnd & Hall).
      cbn [store] in Hnames, Hnd.
      exists created. repeat split; auto.
      constructor; [reflexivity | exact Hall].
Qed.

(** One paste of a one-item copy buffer. *)
Lemma paste_copy_single (target : list string) (c : Content) (r : Row)
    (eng : Engine) :
  buffer eng = Some (mkBuffer copy [c]) ->
  lookup (path (row c)) (store eng) = Some r ->
  is_container target (store eng) = true ->
  let n := disambiguate (entry_name (path (row c)))
             (child_names target (store eng)) in
  let r' := mkRow (target ++ [n]) n (kind r) (writable r) in
  pasteSelection target eng
  = (mkEngine (buffer eng) (store eng ++ [r'])
              (issued eng ++ [BCopy (path (row c)) target]),
     inr [(c, inr r')]).
Proof.
  intros Hb Hl Hc n r'. unfold pasteSelection. rewrite Hb.
  cbn [mode items each_item].
  rewrite (backend_copy_ok _ _ _ _ Hl Hc), ?Hb. reflexivity.
Qed.

(** The names a one-item copy buffer produces, paste after paste. *)
Lemma paste_copy_repeat (target : list string) (c : Content) (r : Row)
    (eng : Engine) :
  let nm := entry_name (path (row c)) in
  let nth_name := fun i => match i with 0 => nm | S _ => suffixed nm i end in
  buffer eng = Some (mkBuffer copy [c]) ->
  lookup (path (row c)) (store eng) = Some r ->
  is_container target (store eng) = true ->
  ~ In nm (child_names target (store eng)) ->
  forall n,
    (forall i, 1 <= i < n ->
               ~ In (suffixed nm i) (child_names target (store eng))) ->
    let eng_n := Nat.iter n (fun e => fst (pasteSelection target e)) eng in
    buffer eng_n = Some (mkBuffer copy [c]) /\
    lookup (path (row c)) (store eng_n) = Some r /\
    is_container target (store eng_n) = true /\
    child_names target (store eng_n)
    = child_names target (store eng) ++ map nth_name (seq 0 n).
Proof.
  intros nm nth_name Hb Hl Hc Hnm n.
  induction n as [|n IH]; intros Hsuf.
  - cbn. rewrite List.app_nil_r. auto.
  - destruct IH as (Hb' & Hl' & Hc' & Hnames).
    { intros i Hi. apply Hsuf. lia. }
    cbv zeta in *. rewrite Nat.iter_succ.
    set (eng_n := Nat.iter n (fun e => fst (pasteSelection target e)) eng) in *.
    rewrite (paste_copy_single target c r eng_n Hb' Hl' Hc').
    cbn [fst buffer store].
    split; [exact Hb'|]. split; [now apply lookup_app|].
    split; [now apply is_container_app|].
    rewrite child_names_new, Hnames, seq_S, map_app, List.app_assoc.
    cbn [map Nat.add]. do 2 f_equal.
    fold nm.
    destruct (disambiguate_spec nm
                (child_names target (store eng) ++ map nth_name (seq 0 n)))
      as (Hfree & Hkeep & Htaken).
    destruct n as [|k].
    + cbn [seq map] in *. rewrite List.app_nil_r in *. now apply Hkeep.
    + destruct Htaken as (j & Hj & Ej & Hbelow).
      { apply in_or_app. right. cbn. now left. }
      rewrite Ej in *. cbn [nth_name].
      assert (Hin : forall i, 1 <= i -> i < S k ->
                In (suffixed nm i) (map nth_name (seq 0 (S k)))).
      { intros i H1 H2. apply in_map_iff. exists i. split.
        - destruct i; [lia | reflexivity].
        - apply in_seq. lia. }
      assert (Hout : ~ In (suffixed nm (S k))
                       (child_names target (store eng)
                        ++ map nth_name (seq 0 (S k)))).
      { intros H. apply in_app_or in H as [H | H].
        - revert H. apply Hsuf. lia.
        - apply in_map_iff in H as (i & Ei & Hi). apply in_seq in Hi.
          destruct i as [|i]; cbn [nth_name] in Ei.
          + symmetry in Ei. now apply suffixed_not_name in Ei.
          + apply suffixed_inj in Ei. lia. }
      destruct (Nat.lt_trichotomy j (S k)) as [Hlt | [-> | Hgt]].
      * exfalso. apply Hfree. apply in_or_app. right. now apply Hin.
      * reflexivity.
      * exfalso. apply Hout. apply Hbelow. lia.
Qed.

(** A batch of copies into one container, item by item: the row created
    for an item bears the disambiguation of the item's name against the
    siblings of that moment, which are the siblings at the start followed by
    the names the batch has created before. *)
Lemma each_copy_exact (target : list string) (xs : list Content) :
  forall eng eng' rep,
    each_item (fun src => backend_copy src target)
              (fun src => BCopy src target) xs eng = (eng', rep) ->
    child_names target (store eng')
    = child_names target (store eng) ++ created_names rep /\
    (forall (before : report) (c : Content) (r' : Row) (after : report),
       rep = before ++ (c, inr r') :: after ->
       path r' = target ++ [name r'] /\
       name r'
       = disambiguate (entry_name (path (row c)))
           (child_names target (store eng) ++ created_names before)).
Proof.
  induction xs as [|c0 xs IH]; intros eng eng' rep H; simpl in H.
  - injection H as <- <-. split; [now rewrite List.app_nil_r|].
    intros [|? ?] c r' after E; discriminate.
  - destruct (backend_copy_cases (path (row c0)) target (store eng))
      as [(r & Hl & Hc & E) | E]; rewrite E in H; clear E;
      destruct (each_item _ _ xs _) as [eng1 rep1] eqn:Hrest;
      injection H as <- <-;
      apply IH in Hrest as (Hnames & Hitems); cbn [store] in Hnames, Hitems.
    + rewrite child_names_new in Hnames. split.
      * rewrite Hnames, <- List.app_assoc. reflexivity.
      * intros [|x before] c r' after E; simpl in E.
        -- injection E as <- <- _. cbn [path name created_names].
           now rewrite List.app_nil_r.
        -- injection E as <- E. cbn [created_names name].
           destruct (Hitems before c r' after E) as (Hp & Hn).
           rewrite child_names_new in Hn.
           split; [exact Hp|]. rewrite Hn, <- List.app_assoc. reflexivity.
    + split; [exact Hnames|].
      intros [|x before] c r' after E; simpl in E; [discriminate|].
      injection E as <- E. cbn [created_names].
      exact (Hitems before c r' after E).
Qed.

(** A batch of copies into an existing container copies every item whose
    source exists. *)
Lemma each_copy_all_ok (target : list string) (xs : list Content) :
  forall eng eng' rep,
    each_item (fun src => backend_copy src target)
              (fun src => BCopy src target) xs eng = (eng', rep) ->
    is_container target (store eng) = true ->
    (forall c, In c xs -> lookup (path (row c)) (store eng) <> None) ->
    all_ok rep = true.
Proof.
  induction xs as [|c0 xs IH]; intros eng eng' rep H Hc Hsrc; simpl in H.
  - now injection H as <- <-.
  - destruct (lookup (path (row c0)) (store eng)) as [r|] eqn:Hl;
      [|exfalso; apply (Hsrc c0); [now left | exact Hl]].
    rewrite (backend_copy_ok _ _ _ _ Hl Hc) in H.
    destruct (each_item _ _ xs _) as [eng1 rep1] eqn:Hrest.
    injection H as <- <-. unfold all_ok. cbn [forallb item_ok snd andb].
    apply (IH _ _ _ Hrest); cbn [store].
    + now apply is_container_app.
    + intros c Hin.
      destruct (lookup (path (row c)) (store eng)) as [rc|] eqn:Hlc;
        [|exfalso; apply (Hsrc c); [now right | exact Hlc]].
      now rewrite (lookup_app _ _ _ _ Hlc).
Qed.

(** C3: a copy-mode paste into a container creates, for each item of the
    buffer, a row directly under the container; against the siblings of
    that moment (those present before the paste and those the paste has
    created before), the row keeps the item's name when no sibling bears
    it, and otherwise bears the name with the least numeric suffix [-1],
    [-2], ... that no sibling bears.  Every item whose source exists is
    copied, the created names never collide with a sibling or with one
    another, and the copy buffer stays.  Pasting a one-item copy buffer [n]
    times into a container that holds none of the names involved creates
    [name], [name-1], ..., one per paste. *)
Theorem paste_copy_disambiguates (target : list string) (eng : Engine) :
  (forall (c : Content) (r : Row),
     buffer eng = Some (mkBuffer copy [c]) ->
     lookup (path (row c)) (store eng) = Some r ->
     is_container target (store eng) = true ->
     let nm := entry_name (path (row c)) in
     let siblings := child_names target (store eng) in
     exists n,
       pasteSelection target eng
       = (mkEngine (buffer eng)
                   (store eng ++ [mkRow (target ++ [n]) n (kind r) (writable r)])
                   (issued eng ++ [BCopy (path (row c)) target]),
          inr [(c, inr (mkRow (target ++ [n]) n (kind r) (writable r)))]) /\
       ~ In n siblings /\
       (~ In nm siblings -> n = nm) /\
       (In nm siblings ->
        exists k, 1 <= k /\ n = suffixed nm k /\
                  (forall i, 1 <= i < k -> In (suffixed nm i) siblings))) /\
  (forall (xs : list Content) (eng' : Engine) (rep : report),
     buffer eng = Some (mkBuffer copy xs) ->
     pasteSelection target eng = (eng', inr rep) ->
     buffer eng' = buffer eng /\
     map fst rep = xs /\
     exists created,
       child_names target (store eng')
       = child_names target (store eng) ++ created /\
       (NoDup (child_names target (store eng)) ->
        NoDup (child_names target (store eng'))) /\
       Forall (fun x : Content * (error + Row) =>
                 match snd x with
                 | inr r' =>
                     path r' = target ++ [name r'] /\
                     In (name r') created /\
                     (name r' = entry_name (path (row (fst x))) \/
                      exists k, 1 <= k /\
                        name r' = suffixed (entry_name (path (row (fst x)))) k)
                 | inl e => e = NotFound
                 end) rep) /\
  (forall (xs : list Content) (eng' : Engine) (rep : report),
     buffer eng = Some (mkBuffer copy xs) ->
     pasteSelection target eng = (eng', inr rep) ->
     child_names target (store eng')
     = child_names target (store eng) ++ created_names rep /\
     (is_container target (store eng) = true ->
      (forall c, In c xs -> lookup (path (row c)) (store eng) <> None) ->
      all_ok rep = true) /\
     (forall (before : report) (c : Content) (r' : Row) (after : report),
        rep = before ++ (c, inr r') :: after ->
        let nm := entry_name (path (row c)) in
        let siblings :=
          child_names target (store eng) ++ created_names before in
        path r' = target ++ [name r'] /\
        ~ In (name r') siblings /\
        (~ In nm siblings -> name r' = nm) /\
        (In nm siblings ->
         exists k, 1 <= k /\ name r' = suffixed nm k /\
                   (forall i, 1 <= i < k -> In (suffixed nm i) siblings)))) /\
  (forall (c : Content) (r : Row) (n : nat),
     let nm := entry_name (path (row c)) in
     buffer eng = Some (mkBuffer copy [c]) ->
     lookup (path (row c)) (store eng) = Some r ->
     is_container target (store eng) = true ->
     ~ In nm (child_names target (store eng)) ->
     (forall i, 1 <= i < n ->
                ~ In (suffixed nm i) (child_names target (store eng))) ->
     child_names target
       (store (Nat.iter n (fun e => fst (pasteSelection target e)) eng))
     = child_names target (store eng)
       ++ map (fun i => match i with 0 => nm | S _ => suffixed nm i end)
              (seq 0 n)).
Proof.
  split; [|split; [|split]].
  - intros c r Hb Hl Hc nm siblings.
    exists (disambiguate nm siblings).
    split; [exact (paste_copy_single target c r eng Hb Hl Hc)|].
    apply disambiguate_spec.
  - intros xs eng' rep Hb Hpaste.
    unfold pasteSelection in Hpaste. rewrite Hb in Hpaste.
    cbn [mode items] in Hpaste.
    pose proof (each_item_frame (fun src => backend_copy src target)
                  (fun src => BCopy src target) xs eng) as (Hbuf & _ & Hitems).
    destruct (each_item _ _ xs eng) as [eng1 rep1] eqn:Heach.
    injection Hpaste as <- <-. cbn [fst snd] in *.
    split; [exact Hbuf|]. split; [exact Hitems|].
    now apply each_copy_names with (xs := xs).
  - intros xs eng' rep Hb Hpaste.
    unfold pasteSelection in Hpaste. rewrite Hb in Hpaste.
    cbn [mode items] in Hpaste.
    destruct (each_item _ _ xs eng) as [eng1 rep1] eqn:Heach.
    injection Hpaste as <- <-.
    destruct (each_copy_exact target xs eng eng1 rep1 Heach)
      as (Hnames & Hitems).
    split; [exact Hnames|]. split.
    + intros Hc Hsrc. exact (each_copy_all_ok target xs _ _ _ Heach Hc Hsrc).
    + intros before c r' after E nm siblings.
      destruct (Hitems before c r' after E) as (Hp & Hn).
      split; [exact Hp|]. rewrite Hn. apply disambiguate_spec.
  - intros c r n nm Hb Hl Hc Hnm Hsuf.
    now apply (paste_copy_repeat target c r eng Hb Hl Hc Hnm n Hsuf).
Qed.

Lemma paste_copy_disambiguates_witness :
  let eng := mkEngine (Some (mkBuffer copy [Examples.file_b]))
                      Examples.sample_store [] in
  let batch := mkEngine (Some (mkBuffer copy [Examples.file_b; Examples.file_b]))
                        Examples.sample_store [] in
  child_names ["c"]
    (store (Nat.iter 3 (fun e => fst (pasteSelection ["c"] e)) eng))
  = ["b.txt"; "b.txt-1"; "b.txt-2"] /\
  snd (pasteSelection ["a"] batch)
  = inr [ (Examples.file_b,
           inr (mkRow ["a"; "b.txt-1"] "b.txt-1" "file" true));
          (Examples.file_b,
           inr (mkRow ["a"; "b.txt-2"] "b.txt-2" "file" true)) ] /\
  exists k, 1 <= k /\ "b.txt-2" = suffixed "b.txt" k /\
            (forall i, 1 <= i < k ->
                       In (suffixed "b.txt" i) ["b.txt"; "ro.txt"; "b.txt-1"]).
Proof.
  cbv zeta. split; [|split; [reflexivity|]].
  - apply (proj2 (proj2 (proj2 (paste_copy_disambiguates ["c"]
                           (mkEngine (Some (mkBuffer copy [Examples.file_b]))
                                     Examples.sample_store []))))
             Examples.file_b (row Examples.file_b) 3).
    + reflexivity.
    + reflexivity.
    + reflexivity.
    + intros H. exact H.
    + intros i _ H. exact H.
  - destruct (proj1 (proj2 (proj2 (paste_copy_disambiguates ["a"]
                (mkEngine (Some (mkBuffer copy [Examples.file_b; Examples.file_b]))
                          Examples.sample_store []))))
                [Examples.file_b; Examples.file_b]
                (fst (pasteSelection ["a"]
                        (mkEngine
                           (Some (mkBuffer copy [Examples.file_b; Examples.file_b]))
                           Examples.sample_store [])))
                [ (Examples.file_b,
                   inr (mkRow ["a"; "b.txt-1"] "b.txt-1" "file" true));
                  (Examples.file_b,
                   inr (mkRow ["a"; "b.txt-2"] "b.txt-2" "file" true)) ]
                eq_refl eq_refl) as (_ & _ & Hitems).
    destruct (Hitems [ (Examples.file_b,
                        inr (mkRow ["a"; "b.txt-1"] "b.txt-1" "file" true)) ]
                Examples.file_b
                (mkRow ["a"; "b.txt-2"] "b.txt-2" "file" true) [] eq_refl)
      as (_ & _ & _ & Hk).
    apply Hk. simpl. tauto.
Defined.

(* ================================================================== *)
(** ** Objects as maps *)

Lemma get_set_same {V : Type} (k : string) (v : V) (o : JSObject.t V) :
  JSObject.get k (JSObject.set k v o) = Some v.
Proof.
  induction o as [|[k' v'] o IH]; simpl.
  - now rewrite String.eqb_refl.
  - destruct (String.eqb k' k) eqn:E; simpl; rewrite E; auto.
Qed.

Lemma get_set_other {V : Type} (k k' : string) (v : V) (o : JSObject.t V) :
  k <> k' -> JSObject.get k' (JSObject.set k v o) = JSObject.get k' o.
Proof.
  intros Hne. induction o as [|[k0 v0] o IH]; simpl.
  - destruct (String.eqb k k') eqn:E; [|reflexivity].
    apply String.eqb_eq in E. contradiction.
  - destruct (String.eqb k0 k) eqn:E; simpl.
    + apply String.eqb_eq in E. subst k0.
      destruct (String.eqb k k') eqn:E'; [|reflexivity].
      apply String.eqb_eq in E'. contradiction.
    + now rewrite IH.
Qed.

Lemma keys_set_present {V : Type} (k : string) (v : V) (o : JSObject.t V) :
  In k (JSObject.keys o) -> JSObject.keys (JSObject.set k v o) = JSObject.keys o.
Proof.
  induction o as [|[k' v'] o IH]; simpl; [tauto|].
  intros H. destruct (String.eqb k' k) eqn:E; simpl; [reflexivity|].
  f_equal. apply IH. destruct H as [H | H]; [|exact H].
  subst k'. now rewrite String.eqb_refl in E.
Qed.

Lemma set_set {V : Type} (k : string) (v1 v2 : V) (o : JSObject.t V) :
  JSObject.set k v2 (JSObject.set k v1 o) = JSObject.set k v2 o.
Proof.
  induction o as [|[k' v'] o IH]; simpl.
  - now rewrite String.eqb_refl.
  - destruct (String.eqb k' k) eqn:E; simpl; rewrite E; [reflexivity|].
    now rewrite IH.
Qed.

Lemma set_same {V : Type} (k : string) (v : V) (o : JSObject.t V) :
  JSObject.get k o = Some v -> JSObject.set k v o = o.
Proof.
  induction o as [|[k' v'] o IH]; simpl; [discriminate|].
  destruct (String.eqb k' k).
  - now intros [= ->].
  - intros H. now rewrite IH.
Qed.

Lemma set_comm {V : Type} (k1 k2 : string) (v1 v2 : V) (o : JSObject.t V) :
  k1 <> k2 ->
  In k1 (JSObject.keys o) -> In k2 (JSObject.keys o) ->
  JSObject.set k1 v1 (JSObject.set k2 v2 o)
  = JSObject.set k2 v2 (JSObject.set k1 v1 o).
Proof.
  intros Hne. induction o as [|[k v] o IH]; simpl; [tauto|].
  intros H1 H2.
  destruct (String.eqb k k2) eqn:E2, (String.eqb k k1) eqn:E1; simpl;
    rewrite ?E1, ?E2; try reflexivity.
  - apply String.eqb_eq in E1, E2. congruence.
  - f_equal. apply IH.
    + destruct H1 as [-> | H1]; [now rewrite String.eqb_refl in E1 | exact H1].
    + destruct H2 as [-> | H2]; [now rewrite String.eqb_refl in E2 | exact H2].
Qed.

Lemma get_assigned_names {V : Type} (f : string -> V) (k : string)
    (names : list string) :
  forall o : JSObject.t V,
    JSObject.get k
      (fold_left (fun o e => JSObject.set (fst e) (snd e) o)
                 (map (fun n => (n, f n)) names) o)
    = if existsb (String.eqb k) names then Some (f k) else JSObject.get k o.
Proof.
  induction names as [|n names IH]; intros o; simpl; [reflexivity|].
  rewrite IH. destruct (existsb (String.eqb k) names).
  - now rewrite orb_true_r.
  - rewrite orb_false_r. destruct (String.eqb k n) eqn:E.
    + apply String.eqb_eq in E. subst n. apply get_set_same.
    + apply get_set_other. intros ->. now rewrite String.eqb_refl in E.
Qed.

(* ================================================================== *)
(** ** Command ids and registrations *)

Import Registry.

Lemma commandID_inj (n1 n2 : string) : commandID n1 = commandID n2 -> n1 = n2.
Proof. unfold commandID. apply string_append_inj_l. Qed.

Lemma toggleColumnCommandId_inj (c1 c2 : string) :
  toggleColumnCommandId c1 = toggleColumnCommandId c2 -> c1 = c2.
Proof.
  unfold toggleColumnCommandId. intros H.
  apply string_append_inj_l in H. now apply (string_append_inj_l "-") in H.
Qed.

(** X1: for every name of [commandNames], looking the name up in
    [commandIDs] gives ["treefinder:"] followed by the name; the own keys of
    the object are exactly the command names, in order; and two names never
    share an id. *)
Theorem commandIDs_lookup :
  (forall name : string,
     In name commandNames ->
     JSObject.get name commandIDs = Some (commandID name)) /\
  JSObject.keys commandIDs = commandNames /\
  (forall n1 n2 : string, commandID n1 = commandID n2 -> n1 = n2).
Proof.
  split; [|split; [reflexivity | exact commandID_inj]].
  intros name Hin. unfold commandIDs, JSObject.fromEntries.
  rewrite (get_assigned_names (fun n => ("treefinder:" ++ n)%string) name
             commandNames []).
  assert (Hmem : existsb (String.eqb name) commandNames = true).
  { apply existsb_exists. exists name. split; [exact Hin|].
    apply String.eqb_refl. }
  now rewrite Hmem.
Qed.

Lemma commandIDs_lookup_witness :
  In "create_folder" commandNames /\
  JSObject.get "create_folder" commandIDs = Some "treefinder:create_folder".
Proof.
  assert (Hin : In "create_folder" commandNames) by (simpl; tauto).
  split; [exact Hin|].
  exact (proj1 commandIDs_lookup "create_folder" Hin).
Defined.

Lemma named_commands_NoDup :
  NoDup (map commandID
           [ "copy"; "cut"; "delete"; "open"; "paste"; "rename"; "download";
             "create_folder"; "refresh"; "copyFullPath"; "copyRelativePath";
             "toggleColumnPath" ]).
Proof.
  apply Injective_map_NoDup; [intros a b; apply commandID_inj|].
  repeat constructor; simpl; intuition discriminate.
Qed.

(** X2: [createCommands] never registers an id twice: whatever the column
    names, as long as no column is listed twice, the ids of the twelve
    named commands and of the column toggles are pairwise distinct. *)
Theorem registered_ids_distinct (columns : list string) :
  NoDup columns -> NoDup (registeredCommands columns).
Proof.
  intros Hcols. unfold registeredCommands. apply NoDup_app.
  - exact named_commands_NoDup.
  - apply Injective_map_NoDup; [|exact Hcols].
    intros a b. apply toggleColumnCommandId_inj.
  - intros x Hnamed Htoggle.
    apply in_map_iff in Htoggle as (c & <- & _).
    unfold toggleColumnCommandId, commandID in Hnamed. simpl in Hnamed.
    intuition discriminate.
Qed.

Lemma registered_ids_distinct_witness :
  NoDup COLUMN_NAMES /\ NoDup (registeredCommands COLUMN_NAMES).
Proof.
  assert (H : NoDup COLUMN_NAMES)
    by (repeat constructor; simpl; intuition discriminate).
  split; [exact H | exact (registered_ids_distinct COLUMN_NAMES H)].
Defined.

Lemma addItem_ranks (entries : list MenuEntry) :
  forall (items : list ContextMenuItem) (n : nat),
    map rank (fst (fold_left (fun st e => addItem e st) entries (items, n)))
    = map rank items ++ seq n (List.length entries) /\
    map entry (fst (fold_left (fun st e => addItem e st) entries (items, n)))
    = map entry items ++ entries /\
    snd (fold_left (fun st e => addItem e st) entries (items, n))
    = n + List.length entries.
Proof.
  induction entries as [|e entries IH]; intros items n; simpl.
  - rewrite !List.app_nil_r. auto.
  - destruct (IH (items ++ [mkItem e ".jp-tree-finder-sidebar" n]) (S n))
      as (Hr & He & Hn).
    rewrite Hr, He, Hn, !map_app, <- !List.app_assoc. simpl.
    repeat split; lia.
Qed.

(** X3: the context menu holds its thirteen entries in the order of the
    source, with the ranks 1 to 13 in that order, and the rank counter ends
    at 14; every command an entry or the submenu can trigger is one that
    [createCommands] registers. *)
Theorem context_menu_ranked_and_registered (columns : list string) :
  map rank (fst (contextMenu columns)) = seq 1 13 /\
  map entry (fst (contextMenu columns)) = contextMenuEntries columns /\
  snd (contextMenu columns) = 14 /\
  (forall (it : ContextMenuItem) (c : string),
     In it (fst (contextMenu columns)) ->
     In c (entry_commands (entry it)) ->
     In c (registeredCommands columns)).
Proof.
  destruct (addItem_ranks (contextMenuEntries columns) [] 1) as (Hr & He & Hn).
  fold (contextMenu columns) in Hr, He, Hn.
  change (map rank [] ++ seq 1 (List.length (contextMenuEntries columns)))
    with (seq 1 13) in Hr.
  change (map entry [] ++ contextMenuEntries columns)
    with (contextMenuEntries columns) in He.
  change (1 + List.length (contextMenuEntries columns)) with 14 in Hn.
  split; [exact Hr|]. split; [exact He|]. split; [exact Hn|].
  assert (Hall : forall e c, In e (contextMenuEntries columns) ->
                             In c (entry_commands e) ->
                             In c (registeredCommands columns)).
  { intros e c Hentry Hc. unfold registeredCommands. apply in_or_app.
    simpl in Hentry.
    repeat (destruct Hentry as [<- | Hentry];
            [simpl in Hc;
             try (destruct Hc as [<- | []]; left; simpl; tauto)|]);
      try contradiction.
    unfold submenu in Hc. simpl in Hc.
    destruct Hc as [<- | Hc]; [left; simpl; tauto | right; exact Hc]. }
  intros it c Hit Hc. apply (Hall (entry it)); [|exact Hc].
  rewrite <- He. now apply in_map.
Qed.

(* ================================================================== *)
(** ** When resource ids are unique *)

Lemma remove_char_absent (c : ascii) (s : string) :
  JS.all_chars (fun a => negb (Ascii.eqb a c)) s = true ->
  JS.remove_char c s = s.
Proof.
  induction s as [|a s IH]; simpl; [reflexivity|].
  intros H. apply andb_prop in H as [Ha Hs].
  apply negb_true_iff in Ha. rewrite Ha. now rewrite IH.
Qed.

Lemma append_separator_inj (c : ascii) (n1 n2 d1 d2 : string) :
  JS.all_chars (fun a => negb (Ascii.eqb a c)) n1 = true ->
  JS.all_chars (fun a => negb (Ascii.eqb a c)) n2 = true ->
  (n1 ++ String c d1)%string = (n2 ++ String c d2)%string ->
  n1 = n2 /\ d1 = d2.
Proof.
  revert n2. induction n1 as [|a n1 IH]; intros [|b n2]; simpl.
  - intros _ _ [= ->]. auto.
  - intros _ H [= <- _]. now rewrite Ascii.eqb_refl in H.
  - intros H _ [= -> _]. now rewrite Ascii.eqb_refl in H.
  - intros H1 H2 [= -> E].
    apply andb_prop in H1 as [_ H1]. apply andb_prop in H2 as [_ H2].
    destruct (IH n2 H1 H2 E) as [-> ->]. auto.
Qed.

Lemma string_append_inj_r (a b c : string) :
  (a ++ c)%string = (b ++ c)%string -> a = b.
Proof.
  revert b. induction a as [|x a IH]; intros [|y b]; simpl; intros H.
  - reflexivity.
  - apply (f_equal String.length) in H. simpl in H.
    rewrite string_length_append in H. lia.
  - apply (f_equal String.length) in H. simpl in H.
    rewrite string_length_append in H. lia.
  - injection H as -> H. f_equal. now apply IH.
Qed.

(** X4: [idFromResource] tells resources apart in two situations: when no
    name contains a space or an underscore, equal ids mean equal names and
    equal drives; and on one drive, names without spaces get different ids
    as soon as they differ.  The first condition cannot be dropped: the
    names [a_b] and [a] on the drives [c] and [b_c] get the same id. *)
Theorem idFromResource_injective_on_plain_names :
  (forall r1 r2 : Filesystem.IFSResource,
     JS.all_chars (fun a => negb (Ascii.eqb a " ") && negb (Ascii.eqb a "_"))
                  (Filesystem.name r1) = true ->
     JS.all_chars (fun a => negb (Ascii.eqb a " ") && negb (Ascii.eqb a "_"))
                  (Filesystem.name r2) = true ->
     idFromResource r1 = idFromResource r2 -> r1 = r2) /\
  (forall n1 n2 d : string,
     JS.all_chars (fun a => negb (Ascii.eqb a " ")) n1 = true ->
     JS.all_chars (fun a => negb (Ascii.eqb a " ")) n2 = true ->
     idFromResource (Filesystem.mkResource n1 d)
     = idFromResource (Filesystem.mkResource n2 d) ->
     n1 = n2) /\
  (exists r1 r2 : Filesystem.IFSResource,
     Filesystem.name r1 <> Filesystem.name r2 /\
     Filesystem.drive r1 <> Filesystem.drive r2 /\
     idFromResource r1 = idFromResource r2).
Proof.
  assert (Hid : forall r, idFromResource r
     = (JS.remove_char " " (Filesystem.name r) ++ "_" ++ Filesystem.drive r)%string).
  { intros r. unfold idFromResource. cbn [JS.join].
    now rewrite join_split_remove. }
  assert (Hsplit : forall (p q : ascii -> bool) s,
            JS.all_chars (fun a => p a && q a) s = true ->
            JS.all_chars p s = true /\ JS.all_chars q s = true).
  { intros p q s. induction s as [|a s IH]; simpl; [auto|].
    intros H. apply andb_prop in H as [Ha Hs]. apply andb_prop in Ha as [? ?].
    destruct (IH Hs) as [-> ->]. now rewrite !andb_true_r. }
  split; [|split].
  - intros [n1 d1] [n2 d2] H1 H2. rewrite !Hid. simpl.
    apply Hsplit in H1 as [Hs1 Hu1]. apply Hsplit in H2 as [Hs2 Hu2].
    rewrite !remove_char_absent by assumption.
    intros E. apply append_separator_inj in E as [-> ->]; auto.
  - intros n1 n2 d H1 H2. rewrite !Hid. simpl.
    rewrite !remove_char_absent by assumption.
    apply string_append_inj_r.
  - exists (Filesystem.mkResource "a_b" "c"), (Filesystem.mkResource "a" "b_c").
    split; [discriminate|]. split; [discriminate | reflexivity].
Qed.

(* ================================================================== *)
(** ** Trimming the widget URL *)

Lemma last_char_nonempty (s : string) (a : ascii) :
  JS.last_char (String a s) <> None.
Proof.
  revert a. induction s as [|b s IH]; intros a; [discriminate|].
  change (JS.last_char (String a (String b s)))
    with (JS.last_char (String b s)).
  apply IH.
Qed.

Lemma strip_trailing_fixed (p : ascii -> bool) (s : string) :
  (forall a, JS.last_char s = Some a -> p a = false) ->
  JS.strip_trailing p s = s.
Proof.
  induction s as [|a s IH]; [reflexivity|].
  intros Hlast. cbn [JS.strip_trailing].
  destruct (JS.all_chars p (String a s)) eqn:Hall.
  - destruct (JS.last_char (String a s)) as [b|] eqn:Hb.
    + pose proof (last_char_all p _ b Hall Hb). rewrite Hlast in H; auto.
      discriminate.
    + now apply last_char_nonempty in Hb.
  - f_equal. apply IH. intros b Hb. apply Hlast.
    simpl. destruct s; [discriminate | exact Hb].
Qed.

(** X5: the [trimEnd] of copy-full-path leaves a URL unchanged exactly when
    the URL ends neither with white space nor with a slash (or is empty).
    It is not idempotent: white space goes before the slashes do, so a URL
    whose trailing slashes are preceded by white space keeps that white
    space. *)
Theorem trimEnd_fixed_points :
  (forall u : string,
     trimEnd u = u <->
     (forall a, JS.last_char u = Some a ->
                JS.is_whitespace a = false /\ JS.is_slash a = false)) /\
  (exists u : string, trimEnd (trimEnd u) <> trimEnd u).
Proof.
  split.
  - intros u. split.
    + intros Hfix a Ha.
      destruct (trimEnd_decomposition u)
        as (sl & ws & Hu & Hsl & Hws & Hnoslash & Hnows).
      rewrite Hfix in *.
      assert (Hempty : (sl ++ ws)%string = EmptyString).
      { apply (f_equal String.length) in Hu.
        rewrite string_length_append in Hu.
        destruct (sl ++ ws)%string; [reflexivity | simpl in Hu; lia]. }
      destruct sl; [|discriminate]. simpl in Hempty. subst ws.
      rewrite append_empty_r in Hnows. split; [now apply Hnows|].
      unfold JS.is_slash. destruct (Ascii.eqb a "/") eqn:E; [|reflexivity].
      apply Ascii.eqb_eq in E. subst a. contradiction.
    + intros H. unfold trimEnd, JS.replace_trailing_slashes, JS.trimEnd.
      rewrite (strip_trailing_fixed JS.is_whitespace u)
        by (intros a Ha; now apply H).
      apply strip_trailing_fixed. intros a Ha. now apply H.
  - exists "a/ /". intros H. vm_compute in H. discriminate.
Qed.

(* ================================================================== *)
(** ** The column toggles *)

Import Columns.

Lemma in_keys_get {V : Type} (k : string) (o : JSObject.t V) :
  In k (JSObject.keys o) -> exists v, JSObject.get k o = Some v.
Proof.
  induction o as [|[k' v'] o IH]; simpl; [tauto|].
  intros H. destruct (String.eqb k' k) eqn:E; [eauto|].
  destruct H as [-> | H]; [now rewrite String.eqb_refl in E | auto].
Qed.

Lemma initialToggleState_entries (settings : option Settings) :
  initialToggleState settings
  = map (fun key => (key, includes key (colsToDisplay settings))) COLUMN_NAMES.
Proof. reflexivity. Qed.

(** X6: the initial toggle state has one own property per column name, in
    the order of [COLUMN_NAMES], and for each column name the property is
    set exactly when the name is found in the [display_columns] setting;
    names of the setting that are no column are ignored.  Without settings,
    or without a value, only [size] is shown; an empty array shows no
    optional column. *)
Theorem initial_toggle_state (settings : option Settings) :
  JSObject.keys (initialToggleState settings) = COLUMN_NAMES /\
  (forall key : string,
     In key COLUMN_NAMES ->
     isToggled (initialToggleState settings) key
     = Some (includes key (colsToDisplay settings))) /\
  visibleColumns (initialToggleState settings)
  = filter (fun k => includes k (colsToDisplay settings)) COLUMN_NAMES /\
  visibleColumns (initialToggleState None) = ["size"] /\
  visibleColumns (initialToggleState (Some (mkSettings None))) = ["size"] /\
  visibleColumns (initialToggleState (Some (mkSettings (Some [])))) = [].
Proof.
  split; [reflexivity|]. split; [|repeat split].
  intros key Hin. rewrite initialToggleState_entries.
  simpl in Hin.
  destruct Hin as [<- | [<- | [<- | [<- | []]]]]; reflexivity.
Qed.

Lemma initial_toggle_state_witness :
  In "writable" COLUMN_NAMES /\
  isToggled (initialToggleState
               (Some (mkSettings (Some ["mimetype"; "writable"]))))
            "writable"
  = Some true.
Proof.
  assert (Hin : In "writable" COLUMN_NAMES) by (simpl; tauto).
  split; [exact Hin|].
  exact (proj1 (proj2 (initial_toggle_state
                         (Some (mkSettings (Some ["mimetype"; "writable"])))))
           "writable" Hin).
Defined.

(** X7: the toggle command of a column negates the state of that column
    and of no other and adds no property; with settings, what remains of
    its body is one call, [settings.set] of the key ["display_columns"] to
    the columns then visible, awaited, after which the body returns;
    without settings the state changes all the same, nothing is written and
    the body returns. *)
Theorem toggle_flips_one_column (settings : option Settings)
    (column : string) (toggleState : JSObject.t bool) :
  In column (JSObject.keys toggleState) ->
  let after := fst (toggleColumn_execute settings column toggleState) in
  isToggled after column
  = Some (negb (truthy (isToggled toggleState column))) /\
  (forall k, k <> column -> isToggled after k = isToggled toggleState k) /\
  JSObject.keys after = JSObject.keys toggleState /\
  written (snd (toggleColumn_execute settings column toggleState))
  = match settings with
    | Some _ => Some (visibleColumns after)
    | None => None
    end /\
  snd (toggleColumn_execute settings column toggleState)
  = match settings with
    | Some _ =>
        Call (SettingsSet "display_columns" (visibleColumns after))
             (fun p => Await p (fun _ => Done))
    | None => Done
    end.
Proof.
  intros Hin after. subst after. unfold toggleColumn_execute, isToggled.
  cbn [fst snd]. split; [apply get_set_same|].
  split; [intros k Hk; now apply get_set_other|].
  split; [now apply keys_set_present|].
  destruct settings; split; reflexivity.
Qed.

Lemma toggle_flips_one_column_witness :
  let st := initialToggleState None in
  let after := fst (toggleColumn_execute (Some (mkSettings None))
                      "writable" st) in
  In "writable" (JSObject.keys st) /\
  isToggled after "writable" = Some true /\
  isToggled after "size" = Some true /\
  written (snd (toggleColumn_execute (Some (mkSettings None)) "writable" st))
  = Some ["size"; "writable"] /\
  snd (toggleColumn_execute (Some (mkSettings None)) "writable" st)
  = Call (SettingsSet "display_columns" ["size"; "writable"])
         (fun p => Await p (fun _ => Done)).
Proof.
  cbv zeta.
  assert (Hin : In "writable" (JSObject.keys (initialToggleState None)))
    by (simpl; tauto).
  destruct (toggle_flips_one_column (Some (mkSettings None)) "writable"
              (initialToggleState None) Hin)
    as (Hcol & Hothers & _ & Hw & Hbody).
  split; [exact Hin|]. split; [exact Hcol|].
  split; [apply (Hothers "size"); discriminate|].
  split; [exact Hw | exact Hbody].
Defined.

(** X8: toggling a column twice brings the toggle state back to what it
    was, and the second toggle writes the columns that were visible at the
    start. *)
Theorem toggle_twice_restores (settings : option Settings)
    (column : string) (toggleState : JSObject.t bool) :
  In column (JSObject.keys toggleState) ->
  let once := fst (toggleColumn_execute settings column toggleState) in
  fst (toggleColumn_execute settings column once) = toggleState /\
  written (snd (toggleColumn_execute settings column once))
  = match settings with
    | Some _ => Some (visibleColumns toggleState)
    | None => None
    end.
Proof.
  intros Hin once.
  assert (Hback : fst (toggleColumn_execute settings column once)
                  = toggleState).
  { subst once. unfold toggleColumn_execute. cbn [fst].
    destruct (in_keys_get column toggleState Hin) as (b & Hb).
    rewrite get_set_same, set_set, Hb. cbn [truthy].
    rewrite negb_involutive. now apply set_same. }
  split; [exact Hback|].
  unfold toggleColumn_execute in *. cbn [fst snd] in *.
  destruct settings; [|reflexivity]. cbn [written]. now rewrite Hback.
Qed.

Lemma toggle_twice_restores_witness :
  let st := initialToggleState (Some (mkSettings (Some ["mimetype"]))) in
  In "size" (JSObject.keys st) /\
  fst (toggleColumn_execute None "size"
         (fst (toggleColumn_execute None "size" st))) = st.
Proof.
  cbv zeta.
  assert (Hin : In "size" (JSObject.keys
                  (initialToggleState (Some (mkSettings (Some ["mimetype"]))))))
    by (simpl; tauto).
  split; [exact Hin|].
  exact (proj1 (toggle_twice_restores None "size" _ Hin)).
Defined.

(** X9: toggles of two different columns commute: in either order they
    leave the same toggle state, and so the same visible columns. *)
Theorem toggles_commute (settings : option Settings) (c1 c2 : string)
    (toggleState : JSObject.t bool) :
  c1 <> c2 ->
  In c1 (JSObject.keys toggleState) ->
  In c2 (JSObject.keys toggleState) ->
  fst (toggleColumn_execute settings c2
         (fst (toggleColumn_execute settings c1 toggleState)))
  = fst (toggleColumn_execute settings c1
           (fst (toggleColumn_execute settings c2 toggleState))).
Proof.
  intros Hne H1 H2. unfold toggleColumn_execute. cbn [fst].
  rewrite (get_set_other c1 c2) by exact Hne.
  rewrite (get_set_other c2 c1) by (intros E; now apply Hne).
  now apply set_comm.
Qed.

Lemma toggles_commute_witness :
  let st := initialToggleState None in
  "size" <> "mimetype" /\
  fst (toggleColumn_execute None "mimetype"
         (fst (toggleColumn_execute None "size" st)))
  = fst (toggleColumn_execute None "size"
           (fst (toggleColumn_execute None "mimetype" st))).
Proof.
  cbv zeta.
  assert (Hne : "size" <> "mimetype") by discriminate.
  split; [exact Hne|].
  apply (toggles_commute None "size" "mimetype" (initialToggleState None) Hne);
    simpl; tauto.
Defined.

(** X10: the first toggle after start-up writes a clean list: the column
    names, in the order of [COLUMN_NAMES] and once each, that were in the
    setting, with the toggled column added or removed; whatever else the
    setting held (unknown names, repetitions, another order) is gone. *)
Theorem first_toggle_writes_known_columns (s : Settings) (column : string) :
  In column COLUMN_NAMES ->
  written (snd (toggleColumn_execute (Some s) column
                  (initialToggleState (Some s))))
  = Some (filter (fun k => xorb (includes k (colsToDisplay (Some s)))
                                (String.eqb k column))
                 COLUMN_NAMES).
Proof.
  intros Hin. rewrite initialToggleState_entries.
  change (fun key => (key, includes key (colsToDisplay (Some s))))
    with (fun key => (key, (fun k => includes k (colsToDisplay (Some s))) key)).
  change (fun k => xorb (includes k (colsToDisplay (Some s)))
                        (String.eqb k column))
    with (fun k => xorb ((fun k => includes k (colsToDisplay (Some s))) k)
                        (String.eqb k column)).
  generalize (fun k => includes k (colsToDisplay (Some s))). intros f.
  simpl in Hin.
  destruct Hin as [<- | [<- | [<- | [<- | []]]]];
    cbn;
    destruct (f "size"), (f "last_modified"), (f "writable"), (f "mimetype");
    reflexivity.
Qed.

Lemma first_toggle_writes_known_columns_witness :
  In "size" COLUMN_NAMES /\
  written (snd (toggleColumn_execute
                  (Some (mkSettings (Some ["mimetype"; "bogus"; "size";
                                           "mimetype"])))
                  "size"
                  (initialToggleState
                     (Some (mkSettings (Some ["mimetype"; "bogus"; "size";
                                              "mimetype"]))))))
  = Some ["mimetype"].
Proof.
  assert (Hin : In "size" COLUMN_NAMES) by (simpl; tauto).
  split; [exact Hin|].
  exact (first_toggle_writes_known_columns
           (mkSettings (Some ["mimetype"; "bogus"; "size"; "mimetype"]))
           "size" Hin).
Defined.

Lemma reload_keyed_state (toggleState : JSObject.t bool) :
  JSObject.keys toggleState = COLUMN_NAMES ->
  initialToggleState (Some (mkSettings (Some (visibleColumns toggleState))))
  = toggleState.
Proof.
  intros Hkeys.
  destruct toggleState as [|[k1 b1] [|[k2 b2] [|[k3 b3] [|[k4 b4] [|? ?]]]]];
    try discriminate.
  injection Hkeys as -> -> -> ->.
  destruct b1, b2, b3, b4; reflexivity.
Qed.

Lemma toggles_keep_keys (settings : option Settings) (columns : list string) :
  forall toggleState : JSObject.t bool,
    JSObject.keys toggleState = COLUMN_NAMES ->
    Forall (fun c => In c COLUMN_NAMES) columns ->
    JSObject.keys
      (fold_left (fun st c => fst (toggleColumn_execute settings c st))
                 columns toggleState)
    = COLUMN_NAMES.
Proof.
  induction columns as [|c columns IH]; intros st Hkeys Hall; [exact Hkeys|].
  inversion Hall as [|? ? Hc Hrest]; subst. cbn [fold_left].
  apply IH; [|exact Hrest].
  unfold toggleColumn_execute. cbn [fst].
  rewrite keys_set_present; [exact Hkeys | now rewrite Hkeys].
Qed.

(** X11: persisting and reloading is a round trip: after any sequence of
    toggles of known columns, starting from any settings, a start-up that
    reads back the visible columns (the value every toggle writes) builds
    the very same toggle state. *)
Theorem persisted_columns_round_trip (settings : option Settings)
    (columns : list string) :
  Forall (fun c => In c COLUMN_NAMES) columns ->
  let final :=
    fold_left (fun st c => fst (toggleColumn_execute settings c st))
              columns (initialToggleState settings) in
  initialToggleState (Some (mkSettings (Some (visibleColumns final))))
  = final.
Proof.
  intros Hall final. apply reload_keyed_state.
  now apply toggles_keep_keys.
Qed.

Lemma persisted_columns_round_trip_witness :
  let final :=
    fold_left (fun st c => fst (toggleColumn_execute None c st))
              ["mimetype"; "size"; "writable"; "mimetype"]
              (initialToggleState None) in
  visibleColumns final = ["writable"] /\
  initialToggleState (Some (mkSettings (Some (visibleColumns final))))
  = final.
Proof.
  cbv zeta. split; [reflexivity|].
  apply (persisted_columns_round_trip None
           ["mimetype"; "size"; "writable"; "mimetype"]).
  repeat constructor; simpl; tauto.
Defined.

(* ================================================================== *)
(** ** Enablement against what [execute] dereferences *)

(** X12: without a current widget every command is disabled, copy is
    hidden, and every [execute] throws a [TypeError] before it calls any
    collaborator. *)
Theorem no_widget_disabled_and_throwing
    (Path_fromarray : list string -> string)
    (getRefreshTargets : list Row -> Content -> list Content)
    (selectionArg : bool) :
  let t := mkTracker None in
  (copy_isEnabled t = false /\ cut_isEnabled t = false /\
   delete_isEnabled t = false /\ open_isEnabled t = false /\
   paste_isEnabled t = false /\ rename_isEnabled t = false /\
   download_isEnabled t = false /\ create_folder_isEnabled t = false /\
   refresh_isEnabled t = false /\ copyFullPath_isEnabled t = false /\
   copyRelativePath_isEnabled t = false /\ copy_isVisible t = false) /\
  (copy_execute t = Throw TypeError /\ cut_execute t = Throw TypeError /\
   delete_execute t = Throw TypeError /\ paste_execute t = Throw TypeError) /\
  (open_execute t = Throw TypeError /\ rename_execute t = Throw TypeError /\
   download_execute t = Throw TypeError /\
   create_folder_execute Path_fromarray getRefreshTargets t = Throw TypeError /\
   copyFullPath_execute t = Throw TypeError /\
   copyRelativePath_execute t = Throw TypeError) /\
  refresh_execute selectionArg t = Throw TypeError.
Proof.
  cbv zeta. repeat split. now destruct selectionArg.
Qed.

(** X13: a command that reports itself enabled has a current widget; cut,
    delete, rename and download are enabled only when that widget has a
    model, and then the [execute] of cut and of delete hand this very model
    to the clipboard; a visible copy command is an enabled one. *)
Theorem enabled_commands_have_a_widget (t : Tracker) :
  (hasCurrentWidget t = true \/ currentWidgetSelectionIsWritable t = true \/
   download_isEnabled t = true \/ copy_isVisible t = true ->
   exists w, currentWidget t = Some w /\ copy_isEnabled t = true) /\
  (cut_isEnabled t = true \/ delete_isEnabled t = true \/
   rename_isEnabled t = true \/ download_isEnabled t = true ->
   exists w m,
     currentWidget t = Some w /\ model (treefinder w) = Some m /\
     cut_execute t = Call (CutSelection (Some m)) (fun _ => Done) /\
     delete_execute t = Call (DeleteSelection (Some m)) (fun _ => Done)).
Proof.
  destruct t as [[w|]].
  - split.
    + intros _. exists w. split; reflexivity.
    + destruct w as [[[m|] ps] u].
      * intros _. exists (mkWidget (mkTreeFinder (Some m) ps) u), m.
        repeat split.
      * intros [H | [H | [H | H]]]; discriminate.
  - split.
    + intros [H | [H | [H | H]]]; discriminate.
    + intros [H | [H | [H | H]]]; discriminate.
Qed.

Lemma enabled_commands_have_a_widget_witness :
  let t := Examples.tracker_of [Examples.file_b] None in
  cut_isEnabled t = true /\
  exists w m,
    currentWidget t = Some w /\ model (treefinder w) = Some m /\
    cut_execute t = Call (CutSelection (Some m)) (fun _ => Done) /\
    delete_execute t = Call (DeleteSelection (Some m)) (fun _ => Done).
Proof.
  cbv zeta. split; [reflexivity|].
  apply (proj2 (enabled_commands_have_a_widget
                  (Examples.tracker_of [Examples.file_b] None))).
  left. reflexivity.
Defined.

(** X14: with a current widget whose model is unset, open and create-folder
    still report themselves enabled, yet their [execute] throws a
    [TypeError] before any call; copy (visible and enabled) and paste hand
    [undefined] to the clipboard; cut, delete, rename and download are
    disabled. *)
Theorem unset_model_enabled_but_throwing
    (Path_fromarray : list string -> string)
    (getRefreshTargets : list Row -> Content -> list Content)
    (ps : option (list Content)) (u : option string)
    (o : forall X, uiE X -> X) (t0 : nat) :
  let t := mkTracker (Some (mkWidget (mkTreeFinder None ps) u)) in
  (open_isEnabled t = true /\
   run (logging o) (open_execute t) [] t0 = ([], t0, Some TypeError)) /\
  (create_folder_isEnabled t = true /\
   run (logging o)
       (create_folder_execute Path_fromarray getRefreshTargets t) [] t0
   = ([], t0, Some TypeError)) /\
  (copy_isVisible t = true /\ copy_isEnabled t = true /\
   copy_execute t = Call (CopySelection None) (fun _ => Done)) /\
  (paste_isEnabled t = true /\
   paste_execute t = Call (PasteSelection None) (fun _ => Done)) /\
  (cut_isEnabled t = false /\ delete_isEnabled t = false /\
   rename_isEnabled t = false /\ download_isEnabled t = false).
Proof.
  cbv zeta. repeat split.
Qed.

(** X15: a rename request on an empty selection opens the rename editor on
    [undefined]; if the editor resolves, the new name is published with an
    [undefined] target and the assignment of the new row fails, so no row
    is rewritten; the command itself returns at once without an error. *)
Theorem rename_empty_selection (u : option string) (m : Model)
    (o : forall X, uiE X -> X) (t0 : nat) :
  let w := mkWidget (mkTreeFinder (Some m) (Some [])) u in
  run (logging o) (rename_execute (mkTracker (Some w))) [] t0
  = (Ev (DoRename w None)
       :: match outcome (o _ (DoRename w None)) with
          | inr newContent => [Ev (RenamerNext m (name newContent) None)]
          | inl _ => []
          end,
     t0, None).
Proof.
  intros w. cbn. destruct (outcome (o _ _)); reflexivity.
Qed.
